(** * Phugoid flight path: the numeric core of [Lesson-1_Phugoid.ipynb]

    The notebook defines three functions: [radius_of_curvature], [rotate]
    and [plot_flight_path].  They are duck-typed Python: the same text runs
    on Python floats, on [numpy.float64] scalars and on arrays.  The
    embedding below keeps that shape.  The code is written once, over an
    interface [numpy.Float] of the arithmetic it uses, and is then read at
    three carriers:

    - the real numbers (exact arithmetic, no rounding);
    - IEEE 754 binary64 as [numpy.float64] computes it under
      [numpy.seterr(all='ignore')]: nothing raises, invalid operations give
      NaN and divisions by zero give signed infinities.  The basic
      operations are those of [SpecFloat]; [cos], [sin] and [pow] come from
      the platform's C library and are a parameter;
    - one-dimensional arrays over either carrier, with numpy's broadcasting.
*)

From Stdlib Require Import ZArith QArith Reals Lra Lia.
From Stdlib Require Import Floats.SpecFloat.
From stdpp Require Import base list strings.

(** ** Exceptions *)

(** The only Python exceptions the numeric core can raise. *)
Inductive exn : Set :=
| IndexError   (* subscript outside an array *)
| ValueError.  (* [numpy.zeros] of a negative size *)

Inductive res (A : Type) : Type :=
| Ok (a : A)
| Raise (e : exn).
Arguments Ok {A} a.
Arguments Raise {A} e.

#[global] Instance res_ret : MRet res := fun A a => Ok a.
#[global] Instance res_bind : MBind res := fun A B k m =>
  match m with
  | Ok a => k a
  | Raise e => Raise e
  end.

(** [for i in l: s = body i s], stopping at the first exception. *)
Fixpoint for_each {I S : Type} (body : I -> S -> res S) (l : list I) (s : S)
  : res S :=
  match l with
  | [] => Ok s
  | i :: l' => s' ← body i s; for_each body l' s'
  end.

(** [range(a, b)] for a non-negative start. *)
Definition range (a : nat) (b : Z) : list nat :=
  seq a (Z.to_nat b - a).

(** ** The arithmetic interface *)

Declare Scope py_scope.
Delimit Scope py_scope with py.

Module numpy.

(** What the notebook asks of a number. *)
Class Float (F : Type) : Type := {
  of_int : Z -> F;          (* a Python [int] met by a float operand *)
  of_rat : Q -> F;          (* the float nearest to a fraction *)
  pi : F;                   (* [numpy.pi] *)
  add : F -> F -> F;
  sub : F -> F -> F;
  mul : F -> F -> F;
  div : F -> F -> F;        (* true division [/] *)
  pow : F -> F -> F;        (* [**] *)
  neg : F -> F;
  cos : F -> F;
  sin : F -> F
}.

(** A float literal such as [1.5] or [2.0]: the float nearest to the
    number it spells. *)
Definition lit {F} `{Float F} (q : Q) : F := of_rat (Qred q).

(** [numpy.radians(x)]: the ufunc multiplies by the constant [pi / 180.0]. *)
Definition radians {F} `{Float F} (x : F) : F :=
  mul x (div pi (lit 180)).

(** [numpy.degrees(x)]: the ufunc multiplies by the constant [180.0 / pi]. *)
Definition degrees {F} `{Float F} (x : F) : F :=
  mul x (div (lit 180) pi).

(** [numpy.zeros(N)]: a fresh array of [N] zeros; a negative size raises. *)
Definition zeros {F} `{Float F} (N : Z) : res (list F) :=
  if (N <? 0)%Z then Raise ValueError
  else Ok (replicate (Z.to_nat N) (lit 0)).

(** [a[i]] for [i >= 0]. *)
Definition getitem {F} (a : list F) (i : nat) : res F :=
  match a !! i with
  | Some v => Ok v
  | None => Raise IndexError
  end.

(** [a[i] = v] for [i >= 0]: in place when in range, else [IndexError]. *)
Definition setitem {F} (a : list F) (i : nat) (v : F) : res (list F) :=
  if decide (i < length a)%nat then Ok (<[i := v]> a) else Raise IndexError.

End numpy.

Infix "+" := numpy.add : py_scope.
Infix "-" := numpy.sub : py_scope.
Infix "*" := numpy.mul : py_scope.
Infix "/" := numpy.div : py_scope.
Infix "**" := numpy.pow (at level 30, right associativity) : py_scope.
Notation "- x" := (numpy.neg x) : py_scope.

(** ** The notebook's functions *)

Section Notebook.
Context {F : Type} `{numpy.Float F}.
Local Open Scope py_scope.

(** [return zt / (1 / 3 - C / 2 * (zt / z)**1.5)] *)
Definition radius_of_curvature (z zt C : F) : F :=
  zt / (numpy.of_int 1 / numpy.of_int 3
        - C / numpy.of_int 2 * (zt / z) ** numpy.lit 1.5).

(** [def rotate(coords, center=(0.0, 0.0), angle=0.0, mode='degrees')].
    An argument left out at the call is [None] here and takes the default
    of the signature. *)
Definition rotate (coords : F * F) (center : option (F * F))
    (angle : option F) (mode : option string) : F * F :=
  let center := default (numpy.lit 0.0, numpy.lit 0.0) center in
  let angle := default (numpy.lit 0.0) angle in
  let mode := default "degrees"%string mode in
  let '(x, z) := coords in
  let '(xc, zc) := center in
  let angle :=
    if String.eqb mode "degrees" then numpy.radians angle else angle in
  let x_new := xc + (x - xc) * numpy.cos angle + (z - zc) * numpy.sin angle in
  let z_new := zc - (x - xc) * numpy.sin angle + (z - zc) * numpy.cos angle in
  (x_new, z_new).

(** The state the marching loop of [plot_flight_path] updates: the two
    arrays and the heading. *)
Definition march_state : Type := list F * list F * F.

(** The body of [for i in range(1, N)].  [x[i - 1]] and [z[i - 1]] are
    read several times in the source and never written in between; they
    are read once here. *)
Definition march_body (zt C ds : F) (i : nat) (st : march_state)
  : res march_state :=
  let '(x, z, theta) := st in
  let normal := (numpy.cos (theta + numpy.pi / numpy.lit 2.0),
                 - numpy.sin (theta + numpy.pi / numpy.lit 2.0)) in
  z_prev ← numpy.getitem z (i - 1);
  let R := radius_of_curvature z_prev zt C in
  x_prev ← numpy.getitem x (i - 1);
  let center := (x_prev + R * normal.1, z_prev + R * normal.2) in
  let dtheta := ds / R in
  let '(x_i, z_i) :=
    rotate (x_prev, z_prev) (Some center) (Some dtheta)
           (Some "radians"%string) in
  x ← numpy.setitem x i x_i;
  z ← numpy.setitem z i z_i;
  Ok (x, z, theta + dtheta).

(** [plot_flight_path], from the conversion of [theta0] to the statement
    that binds [C]: the loop state and [C] as the loop finds them. *)
Definition flight_init (zt z0 theta0 : F) (N : Z) : res (march_state * F) :=
  let theta0 := numpy.radians theta0 in
  x ← numpy.zeros N;
  z ← numpy.zeros N;
  x ← numpy.setitem x 0 (numpy.lit 0.0);
  z ← numpy.setitem z 0 z0;
  let theta := theta0 in
  z_0 ← numpy.getitem z 0;
  let C := (numpy.cos theta - numpy.of_int 1 / numpy.of_int 3 * z_0 / zt)
           * (z_0 / zt) ** numpy.lit 0.5 in
  Ok ((x, z, theta), C).

(** [plot_flight_path(zt, z0, theta0, N=1000)] up to the point where the
    figure is drawn.  The function itself returns nothing: what it
    computes is handed to Matplotlib, the arrays to [ax.plot(x, -z)] and
    [C] to the title.  The model returns exactly these. *)
Definition plot_flight_path (zt z0 theta0 : F) (N : option Z)
  : res (list F * list F * F) :=
  let N := default 1000%Z N in
  '(st, C) ← flight_init zt z0 theta0 N;
  let ds := numpy.lit 1.0 in
  '(x, z, _) ← for_each (march_body zt C ds) (range 1 N) st;
  Ok (x, z, C).

(** The same run with the loop cut short: the state in which iteration
    [i] starts, that is after [for i in range(1, i)]. *)
Definition march_until (zt z0 theta0 : F) (N : Z) (i : nat)
  : res march_state :=
  '(st, C) ← flight_init zt z0 theta0 N;
  let ds := numpy.lit 1.0 in
  for_each (march_body zt C ds) (range 1 (Z.of_nat i)) st.

(** The angle printed in the title of the figure,
    [numpy.degrees(theta0)]: [theta0] was rebound to radians by the first
    statement of the function. *)
Definition title_angle (theta0 : F) : F :=
  let theta0 := numpy.radians theta0 in
  numpy.degrees theta0.

(** The path tracer of the specification: the pair of coordinate
    sequences computed by [plot_flight_path]. *)
Definition trace (zt z0 theta0 : F) (N : option Z) : res (list F * list F) :=
  '(x, z, _) ← plot_flight_path zt z0 theta0 N;
  Ok (x, z).

End Notebook.

(** ** Carrier: the real numbers *)

(** Exact arithmetic: no rounding, no NaN.  [x ** y] is [Rpower], the real
    power of a positive base; statements that go through it keep the base
    positive, and those that divide keep the divisor away from zero. *)
#[global] Instance R_Float : numpy.Float R := {|
  numpy.of_int := IZR;
  numpy.of_rat := Q2R;
  numpy.pi := PI;
  numpy.add := Rplus;
  numpy.sub := Rminus;
  numpy.mul := Rmult;
  numpy.div := Rdiv;
  numpy.pow := Rpower;
  numpy.neg := Ropp;
  numpy.cos := cos;
  numpy.sin := sin
|}.

(** ** Carrier: IEEE 754 binary64 *)

Module binary64.

Definition prec : Z := 53.
Definition emax : Z := 1024.

Abbreviation float := spec_float.

Definition nan : float := S754_nan.
Definition is_nan (x : float) : bool :=
  match x with S754_nan => true | _ => false end.
Definition is_inf (x : float) : bool :=
  match x with S754_infinity _ => true | _ => false end.
Definition is_finite (x : float) : bool :=
  match x with S754_zero _ | S754_finite _ _ _ => true | _ => false end.
Definition is_zero (x : float) : bool :=
  match x with S754_zero _ => true | _ => false end.

(** Conversion of a Python [int], rounded to nearest even. *)
Definition of_int (z : Z) : float := binary_normalize prec emax z 0 false.

(** The fraction [n/d] rounded to nearest even, which is how Python reads
    a decimal literal as long as [n] and [d] convert exactly. *)
Definition of_rat (q : Q) : float :=
  SFdiv prec emax (of_int (Qnum q)) (of_int (Zpos (Qden q))).

(** [numpy.pi = 3.141592653589793], bit pattern [0x400921FB54442D18]. *)
Definition pi : float := S754_finite false 7074237752028440 (-51).

Definition half : float := S754_finite false 4503599627370496 (-53).
Definition three_halves : float := S754_finite false 6755399441055744 (-52).

(** The C library functions behind [numpy.cos], [numpy.sin] and [**]. *)
Record libm : Type := {
  c_cos : float -> float;
  c_sin : float -> float;
  c_pow : float -> float -> float
}.

Definition Float (L : libm) : numpy.Float float := {|
  numpy.of_int := of_int;
  numpy.of_rat := of_rat;
  numpy.pi := pi;
  numpy.add := SFadd prec emax;
  numpy.sub := SFsub prec emax;
  numpy.mul := SFmul prec emax;
  numpy.div := SFdiv prec emax;
  numpy.pow := c_pow L;
  numpy.neg := SFopp;
  numpy.cos := c_cos L;
  numpy.sin := c_sin L
|}.

(** What ISO C (Annex F.10) fixes about the three functions, as far as the
    notebook meets it: [cos(±0) = 1], [sin(±0) = ±0], [cos] and [sin] of
    an infinity are NaN, [pow(1, y) = 1] for every [y], [pow(NaN, y)] is
    NaN unless [y] is zero, and for the exponent [1.5]: a negative finite
    base gives NaN, an infinite one gives [+inf]. *)
Record C99 (L : libm) : Prop := {
  cos_zero : forall s, c_cos L (S754_zero s) = of_int 1;
  sin_zero : forall s, c_sin L (S754_zero s) = S754_zero s;
  cos_inf : forall s, c_cos L (S754_infinity s) = nan;
  sin_inf : forall s, c_sin L (S754_infinity s) = nan;
  pow_one : forall y, c_pow L (of_int 1) y = of_int 1;
  pow_nan : forall y, is_zero y = false -> c_pow L nan y = nan;
  pow_neg_base : forall m e,
    c_pow L (S754_finite true m e) three_halves = nan;
  pow_inf : forall s,
    c_pow L (S754_infinity s) three_halves = S754_infinity false
}.

(** A depth at which the curvature formula leaves its domain: zero, or a
    ratio [zt / z] that is negative or not a number. *)
Definition degenerate (zt z : float) : bool :=
  is_zero z ||
  match SFdiv prec emax zt z with
  | S754_nan | S754_finite true _ _ => true
  | _ => false
  end.

(** [pi / 2.0], the cosine of that float, and [-2^-54]. *)
Definition halfpi : float := S754_finite false 7074237752028440 (-52).
Definition cos_halfpi : float := S754_finite false 4967757600021511 (-106).
Definition tiny : float := S754_finite true 4503599627370496 (-106).

(** What a correctly rounding C library returns at the four arguments
    the run on [zt = z0 = 1.0], [theta0 = 0.0] reaches: [cos] and [sin]
    of [pi/2] as a float, and of [-2^-54]. *)
Record rounds_at_example (L : libm) : Prop := {
  cos_at_halfpi : c_cos L halfpi = cos_halfpi;
  sin_at_halfpi : c_sin L halfpi = of_int 1;
  cos_at_tiny : c_cos L tiny = of_int 1;
  sin_at_tiny : c_sin L tiny = tiny
}.

(** A small C library to run examples with: the special cases of
    Annex F, the correctly rounded values at the few arguments the
    examples reach, and a short polynomial elsewhere. *)
Definition table_cos (x : float) : float :=
  match x with
  | S754_nan | S754_infinity _ => nan
  | S754_zero _ => of_int 1
  | S754_finite _ _ _ =>
      if SFeqb x halfpi then cos_halfpi
      else if SFeqb x tiny then of_int 1
      else SFsub prec emax (of_int 1)
             (SFdiv prec emax (SFmul prec emax x x) (of_int 2))
  end.

Definition table_sin (x : float) : float :=
  match x with
  | S754_nan | S754_infinity _ => nan
  | S754_zero _ => x
  | S754_finite _ _ _ =>
      if SFeqb x halfpi then of_int 1
      else if SFeqb x tiny then tiny
      else SFsub prec emax x
             (SFdiv prec emax (SFmul prec emax x (SFmul prec emax x x))
                    (of_int 6))
  end.

Definition table_pow (x y : float) : float :=
  if SFeqb x (of_int 1) then of_int 1
  else if is_zero y then of_int 1
  else if SFeqb y half || SFeqb y three_halves then
    match x with
    | S754_nan | S754_finite true _ _ => nan
    | S754_infinity _ => S754_infinity false
    | S754_zero _ => S754_zero false
    | S754_finite false _ _ =>
        if SFeqb y half then SFsqrt prec emax x
        else SFmul prec emax x (SFsqrt prec emax x)
    end
  else nan.

Definition table_libm : libm :=
  {| c_cos := table_cos; c_sin := table_sin; c_pow := table_pow |}.

End binary64.

(** ** Carrier: one-dimensional arrays *)

Module ndarray.

(** A value as [rotate] may receive it: a scalar or a 1-D array.  An
    operation on two arrays whose shapes do not broadcast raises in
    numpy; [Raised] stands for that and absorbs every later operation. *)
Inductive t (F : Type) : Type :=
| Scalar (v : F)
| Array (l : list F)
| Raised.
Arguments Scalar {F} v.
Arguments Array {F} l.
Arguments Raised {F}.

Definition lift1 {F} (f : F -> F) (a : t F) : t F :=
  match a with
  | Scalar v => Scalar (f v)
  | Array l => Array (map f l)
  | Raised => Raised
  end.

(** Broadcasting of a binary operation: a scalar, or an array of length
    one, is stretched along the other operand. *)
Definition lift2 {F} (f : F -> F -> F) (a b : t F) : t F :=
  match a, b with
  | Scalar u, Scalar v => Scalar (f u v)
  | Scalar u, Array l => Array (map (f u) l)
  | Array l, Scalar v => Array (map (fun u => f u v) l)
  | Array l1, Array l2 =>
      if decide (length l1 = length l2) then Array (zip_with f l1 l2)
      else match l1, l2 with
           | [u], _ => Array (map (f u) l2)
           | _, [v] => Array (map (fun u => f u v) l1)
           | _, _ => Raised
           end
  | _, _ => Raised
  end.

#[global] Instance Float {F} `{numpy.Float F} : numpy.Float (t F) := {|
  numpy.of_int := fun n => Scalar (numpy.of_int n);
  numpy.of_rat := fun q => Scalar (numpy.of_rat q);
  numpy.pi := Scalar numpy.pi;
  numpy.add := lift2 numpy.add;
  numpy.sub := lift2 numpy.sub;
  numpy.mul := lift2 numpy.mul;
  numpy.div := lift2 numpy.div;
  numpy.pow := lift2 numpy.pow;
  numpy.neg := lift1 numpy.neg;
  numpy.cos := lift1 numpy.cos;
  numpy.sin := lift1 numpy.sin
|}.

End ndarray.

(** ** The specification's formulas *)

(** These follow the wording of the specification, not the source; the
    theorems below compare them with the notebook's functions. *)

Inductive angle_unit : Set := degrees | radians.

(** The [mode] string that selects a unit. *)
Definition mode_of (u : angle_unit) : string :=
  match u with
  | degrees => "degrees"
  | radians => "radians"
  end.

Section Specification.
Context {F : Type} `{numpy.Float F}.
Local Open Scope py_scope.

(** CurvatureModel: [R = zt / (1/3 - (C/2) * (zt/z)^1.5)]. *)
Definition spec_radius (z zt C : F) : F :=
  zt / ((numpy.of_int 1 / numpy.of_int 3)
        - ((C / numpy.of_int 2) * ((zt / z) ** numpy.lit 1.5))).

(** RotationOperator:
    [x' = xc + (x-xc)*cos(angle) + (z-zc)*sin(angle)],
    [z' = zc - (x-xc)*sin(angle) + (z-zc)*cos(angle)],
    degrees being converted to radians before use. *)
Definition spec_rotate (p c : F * F) (a : F) (u : angle_unit) : F * F :=
  let a := match u with
           | degrees => numpy.radians a
           | radians => a
           end in
  (c.1 + (p.1 - c.1) * numpy.cos a + (p.2 - c.2) * numpy.sin a,
   c.2 - (p.1 - c.1) * numpy.sin a + (p.2 - c.2) * numpy.cos a).

(** PathTracer, step (a) to (f), on the triple (x, z, heading). *)
Definition spec_step (zt C : F) (s : F * F * F) : F * F * F :=
  let '(x, z, theta) := s in
  let ds := numpy.lit 1.0 in
  let normal := (numpy.cos (theta + numpy.pi / numpy.lit 2),
                 - numpy.sin (theta + numpy.pi / numpy.lit 2)) in
  let R := radius_of_curvature z zt C in
  let center := (x + R * normal.1, z + R * normal.2) in
  let dtheta := ds / R in
  let p := spec_rotate (x, z) center dtheta radians in
  (p.1, p.2, theta + dtheta).

(** The value the notebook binds to [C] (second statement after the
    arrays are set up). *)
Definition initial_C (zt z0 theta0 : F) : F :=
  (numpy.cos (numpy.radians theta0)
   - numpy.of_int 1 / numpy.of_int 3 * z0 / zt)
  * (z0 / zt) ** numpy.lit 0.5.

(** Point 0 and the initial heading. *)
Definition spec_init (z0 theta0 : F) : F * F * F :=
  (numpy.lit 0.0, z0, numpy.radians theta0).

(** The state after [i] steps. *)
Fixpoint spec_path (zt z0 theta0 : F) (i : nat) : F * F * F :=
  match i with
  | O => spec_init z0 theta0
  | S j => spec_step zt (initial_C zt z0 theta0) (spec_path zt z0 theta0 j)
  end.

End Specification.

(** PathTracer, initialisation: [C = (cos(θ) - (1/3)(z0/zt)) * sqrt(z0/zt)]
    with [θ] the initial heading in radians, in exact arithmetic. *)
Definition spec_C (zt z0 theta : R) : R :=
  ((cos theta - (1 / 3) * (z0 / zt)) * sqrt (z0 / zt))%R.

(** Euclidean distance in the (x, z) plane. *)
Definition dist (p q : R * R) : R :=
  sqrt ((p.1 - q.1) ^ 2 + (p.2 - q.2) ^ 2)%R.

(** * Properties *)

(** ** The marching loop, over any carrier *)

Section Marching.
Context {F : Type} `{numpy.Float F}.
Local Open Scope py_scope.

Lemma rotate_unit (p c : F * F) (a : F) (u : angle_unit) :
  rotate p (Some c) (Some a) (Some (mode_of u)) = spec_rotate p c a u.
Proof. destruct p, c, u; reflexivity. Qed.

Lemma getitem_Some (a : list F) (i : nat) (v : F) :
  a !! i = Some v -> numpy.getitem a i = Ok v.
Proof. unfold numpy.getitem. intros ->. reflexivity. Qed.

Lemma setitem_lt (a : list F) (i : nat) (v : F) :
  (i < length a)%nat -> numpy.setitem a i v = Ok (<[i := v]> a).
Proof. unfold numpy.setitem. intros Hi. case_decide; [reflexivity | lia]. Qed.

Lemma setitem_ge (a : list F) (i : nat) (v : F) :
  (length a <= i)%nat -> numpy.setitem a i v = Raise IndexError.
Proof. unfold numpy.setitem. intros Hi. case_decide; [lia | reflexivity]. Qed.

(** One pass through the loop body writes entry [i] of both arrays with
    the point [spec_step] computes from entry [i - 1] and the heading. *)
Lemma march_body_step (zt C : F) (i : nat) (x z : list F) (theta xp zp : F) :
  x !! (i - 1)%nat = Some xp -> z !! (i - 1)%nat = Some zp ->
  (i < length x)%nat -> (i < length z)%nat ->
  march_body zt C (numpy.lit 1.0) i (x, z, theta) =
    let s := spec_step zt C (xp, zp, theta) in
    Ok (<[i := s.1.1]> x, <[i := s.1.2]> z, s.2).
Proof.
  intros Hx Hz Lx Lz. unfold march_body.
  rewrite (getitem_Some _ _ _ Hz), (getitem_Some _ _ _ Hx). cbn [mbind res_bind].
  change (Some "radians"%string) with (Some (mode_of radians)).
  rewrite rotate_unit.
  destruct (spec_rotate _ _ _ _) as [x_i z_i] eqn:E.
  rewrite setitem_lt by assumption. cbn [mbind res_bind].
  rewrite setitem_lt by assumption. cbn [mbind res_bind].
  unfold spec_step. cbn zeta.
  change (numpy.lit 2.0) with (numpy.lit (F := F) 2) in E.
  rewrite E. reflexivity.
Qed.

(** The initialisation succeeds as soon as there is one point to store. *)
Lemma flight_init_ok (zt z0 theta0 : F) (N : Z) :
  (1 <= N)%Z ->
  flight_init zt z0 theta0 N =
    Ok (<[0%nat := numpy.lit 0.0]> (replicate (Z.to_nat N) (numpy.lit 0)),
        <[0%nat := z0]> (replicate (Z.to_nat N) (numpy.lit 0)),
        numpy.radians theta0,
        initial_C zt z0 theta0).
Proof.
  intros HN. unfold flight_init, numpy.zeros.
  destruct (Z.ltb_spec N 0) as [?|_]; [lia|]. cbn [mbind res_bind].
  rewrite !setitem_lt by (rewrite length_replicate; lia).
  cbn [mbind res_bind].
  rewrite (getitem_Some _ 0%nat z0)
    by (apply list_lookup_insert_eq; rewrite length_replicate; lia).
  reflexivity.
Qed.

(** The loop invariant: when iteration [a] starts, entries below [a]
    hold the path and the heading is that of point [a - 1]. *)
Lemma march_loop (zt z0 theta0 : F) (n k : nat) :
  forall (a : nat) (x z : list F),
  (1 <= a)%nat -> (a + k <= n)%nat -> length x = n -> length z = n ->
  (forall j, (j < a)%nat ->
     x !! j = Some (spec_path zt z0 theta0 j).1.1 /\
     z !! j = Some (spec_path zt z0 theta0 j).1.2) ->
  exists x' z',
    for_each (march_body zt (initial_C zt z0 theta0) (numpy.lit 1.0))
      (seq a k) (x, z, (spec_path zt z0 theta0 (a - 1)).2)
    = Ok (x', z', (spec_path zt z0 theta0 (a + k - 1)).2)
    /\ length x' = n /\ length z' = n
    /\ forall j, (j < a + k)%nat ->
         x' !! j = Some (spec_path zt z0 theta0 j).1.1 /\
         z' !! j = Some (spec_path zt z0 theta0 j).1.2.
Proof.
  induction k as [|k IH]; intros a x z Ha Hk Lx Lz Hpre.
  - exists x, z. replace (a + 0 - 1)%nat with (a - 1)%nat by lia.
    repeat split; try assumption; apply Hpre; lia.
  - destruct a as [|b]; [lia|].
    replace (S b - 1)%nat with b in * by lia.
    destruct (Hpre b ltac:(lia)) as [Hxb Hzb].
    cbn [seq for_each].
    pose proof (march_body_step zt (initial_C zt z0 theta0) (S b) x z
                  (spec_path zt z0 theta0 b).2
                  (spec_path zt z0 theta0 b).1.1
                  (spec_path zt z0 theta0 b).1.2) as Hstep.
    replace (S b - 1)%nat with b in Hstep by lia.
    specialize (Hstep Hxb Hzb ltac:(lia) ltac:(lia)).
    assert (Hnext : spec_step zt (initial_C zt z0 theta0)
              ((spec_path zt z0 theta0 b).1.1, (spec_path zt z0 theta0 b).1.2,
               (spec_path zt z0 theta0 b).2) = spec_path zt z0 theta0 (S b)).
    { cbn [spec_path]. destruct (spec_path zt z0 theta0 b) as [[? ?] ?].
      reflexivity. }
    rewrite Hnext in Hstep. cbn zeta in Hstep.
    rewrite Hstep. cbn [mbind res_bind].
    destruct (IH (S (S b)) (<[S b := (spec_path zt z0 theta0 (S b)).1.1]> x)
                (<[S b := (spec_path zt z0 theta0 (S b)).1.2]> z))
      as (x' & z' & Hrun & Lx' & Lz' & Hpost).
    + lia.
    + lia.
    + rewrite length_insert. exact Lx.
    + rewrite length_insert. exact Lz.
    + intros j Hj. destruct (decide (j = S b)) as [->|Hne].
      * rewrite !list_lookup_insert_eq by lia. split; reflexivity.
      * rewrite !list_lookup_insert_ne by lia. apply Hpre. lia.
    + exists x', z'.
      replace (S (S b) - 1)%nat with (S b) in Hrun by lia.
      replace (S b + S k - 1)%nat with (S (S b) + k - 1)%nat by lia.
      repeat split; try assumption.
      * apply Hpost. lia.
      * apply Hpost. lia.
Qed.

(** The loop run for [k <= N - 1] iterations from the initial state. *)
Lemma march_from_init (zt z0 theta0 : F) (N : Z) (k : nat) :
  (1 <= N)%Z -> (Z.of_nat k <= N - 1)%Z ->
  exists x z : list F,
    for_each (march_body zt (initial_C zt z0 theta0) (numpy.lit 1.0))
      (seq 1 k)
      (<[0%nat := numpy.lit 0.0]> (replicate (Z.to_nat N) (numpy.lit 0)),
       <[0%nat := z0]> (replicate (Z.to_nat N) (numpy.lit 0)),
       numpy.radians theta0)
    = Ok (x, z, (spec_path zt z0 theta0 k).2)
    /\ length x = Z.to_nat N /\ length z = Z.to_nat N
    /\ forall j, (j <= k)%nat ->
         x !! j = Some (spec_path zt z0 theta0 j).1.1 /\
         z !! j = Some (spec_path zt z0 theta0 j).1.2.
Proof.
  intros HN Hk.
  destruct (march_loop zt z0 theta0 (Z.to_nat N) k 1
              (<[0%nat := numpy.lit 0.0]> (replicate (Z.to_nat N) (numpy.lit 0)))
              (<[0%nat := z0]> (replicate (Z.to_nat N) (numpy.lit 0))))
    as (x & z & Hrun & Lx & Lz & Hpath).
  - lia.
  - lia.
  - rewrite length_insert, length_replicate. reflexivity.
  - rewrite length_insert, length_replicate. reflexivity.
  - intros j Hj. assert (j = 0%nat) as -> by lia.
    rewrite !list_lookup_insert_eq by (rewrite length_replicate; lia).
    split; reflexivity.
  - exists x, z.
    replace (1 + k - 1)%nat with k in Hrun by lia.
    repeat split; try assumption; apply Hpath; lia.
Qed.

(** A run of [plot_flight_path] on at least one point: nothing raises,
    both arrays have [N] entries, they hold the path, and [C] is the
    value computed before the loop. *)
Lemma plot_flight_path_run (zt z0 theta0 : F) (N : Z) :
  (1 <= N)%Z ->
  exists X Z : list F,
    plot_flight_path zt z0 theta0 (Some N)
      = Ok (X, Z, initial_C zt z0 theta0)
    /\ length X = Z.to_nat N /\ length Z = Z.to_nat N
    /\ forall i, (i < Z.to_nat N)%nat ->
         X !! i = Some (spec_path zt z0 theta0 i).1.1 /\
         Z !! i = Some (spec_path zt z0 theta0 i).1.2.
Proof.
  intros HN. unfold plot_flight_path, default.
  cbn [from_option]. unfold Datatypes.id.
  rewrite flight_init_ok by assumption. cbn [mbind res_bind].
  destruct (march_from_init zt z0 theta0 N (Z.to_nat N - 1) HN ltac:(lia))
    as (X & Z & Hrun & LX & LZ & Hpath).
  exists X, Z. unfold range. rewrite Hrun. cbn [mbind res_bind].
  repeat split; try assumption; apply Hpath; lia.
Qed.

(** The state in which iteration [i] of a run on [N] points starts. *)
Lemma march_until_run (zt z0 theta0 : F) (N : Z) (i : nat) :
  (1 <= i)%nat -> (Z.of_nat i <= N)%Z ->
  exists x z : list F,
    march_until zt z0 theta0 N i
      = Ok (x, z, (spec_path zt z0 theta0 (i - 1)).2)
    /\ length x = Z.to_nat N /\ length z = Z.to_nat N
    /\ forall j, (j < i)%nat ->
         x !! j = Some (spec_path zt z0 theta0 j).1.1 /\
         z !! j = Some (spec_path zt z0 theta0 j).1.2.
Proof.
  intros Hi HiN. unfold march_until.
  rewrite flight_init_ok by lia. cbn [mbind res_bind].
  destruct (march_from_init zt z0 theta0 N (i - 1) ltac:(lia) ltac:(lia))
    as (x & z & Hrun & Lx & Lz & Hpath).
  exists x, z. unfold range. rewrite Nat2Z.id, Hrun.
  repeat split; try assumption; apply Hpath; lia.
Qed.

End Marching.

(** ** Literals over the reals *)

Lemma lit_exact (q : Q) : numpy.lit (F := R) q = Q2R q.
Proof. unfold numpy.lit. cbn. apply Qreals.Qeq_eqR, Qred_correct. Qed.

Lemma lit_exact_0 : numpy.lit (F := R) 0.0 = 0%R.
Proof. rewrite lit_exact. unfold Q2R. cbn. lra. Qed.

Lemma lit_exact_1 : numpy.lit (F := R) 1.0 = 1%R.
Proof. rewrite lit_exact. unfold Q2R. cbn. lra. Qed.

Lemma lit_exact_2 : numpy.lit (F := R) 2.0 = 2%R.
Proof. rewrite lit_exact. unfold Q2R. cbn. lra. Qed.

Lemma lit_exact_half : numpy.lit (F := R) 0.5 = (/ 2)%R.
Proof. rewrite lit_exact. unfold Q2R. cbn. lra. Qed.

Lemma lit_exact_three_halves : numpy.lit (F := R) 1.5 = 1.5%R.
Proof. rewrite lit_exact. unfold Q2R. cbn. lra. Qed.

Lemma radians_exact (d : R) : numpy.radians d = (d * PI / 180)%R.
Proof.
  unfold numpy.radians. rewrite lit_exact. cbn. unfold Q2R. cbn. lra.
Qed.

(** ** Claims that hold over every carrier *)

Section Generic.
Context {F : Type} `{numpy.Float F}.
Local Open Scope py_scope.

Lemma for_each_app {I S : Type} (body : I -> S -> res S) (l1 l2 : list I)
    (s : S) :
  for_each body (l1 ++ l2) s = s' ← for_each body l1 s; for_each body l2 s'.
Proof.
  revert s. induction l1 as [|i l1 IH]; intros s; cbn [app for_each].
  - reflexivity.
  - destruct (body i s) as [s'|e]; cbn [mbind res_bind]; [apply IH | reflexivity].
Qed.

(** Iteration [i] of a run on [N] points, with everything it reads and
    writes spelled out. *)
Lemma marching_step_run (zt z0 theta0 : F) (N : Z) (i : nat) :
  (1 <= i)%nat -> (Z.of_nat i <= N - 1)%Z ->
  exists (x z X Z : list F) (theta xp zp : F),
    let C := initial_C zt z0 theta0 in
    let ds := numpy.lit 1.0 in
    march_until zt z0 theta0 N i = Ok (x, z, theta)
    /\ x !! (i - 1)%nat = Some xp /\ z !! (i - 1)%nat = Some zp
    /\ plot_flight_path zt z0 theta0 (Some N) = Ok (X, Z, C)
    /\ X !! (i - 1)%nat = Some xp /\ Z !! (i - 1)%nat = Some zp
    /\ let normal := (numpy.cos (theta + numpy.pi / numpy.lit 2.0),
                      - numpy.sin (theta + numpy.pi / numpy.lit 2.0)) in
       let R := radius_of_curvature zp zt C in
       let center := (xp + R * normal.1, zp + R * normal.2) in
       let dtheta := ds / R in
       let p := rotate (xp, zp) (Some center) (Some dtheta)
                  (Some "radians"%string) in
       march_body zt C ds i (x, z, theta)
         = Ok (<[i := p.1]> x, <[i := p.2]> z, theta + dtheta)
       /\ march_until zt z0 theta0 N (S i)
         = Ok (<[i := p.1]> x, <[i := p.2]> z, theta + dtheta)
       /\ X !! i = Some p.1 /\ Z !! i = Some p.2.
Proof.
  intros Hi HiN.
  destruct (march_until_run zt z0 theta0 N i Hi ltac:(lia))
    as (x & z & Hun & Lx & Lz & Hpre).
  destruct (plot_flight_path_run zt z0 theta0 N ltac:(lia))
    as (X & Z & Hrun & LX & LZ & Hpath).
  destruct (Hpre (i - 1)%nat ltac:(lia)) as [Hxp Hzp].
  destruct (Hpath (i - 1)%nat ltac:(lia)) as [HXp HZp].
  destruct (Hpath i ltac:(lia)) as [HXi HZi].
  pose proof (march_body_step zt (initial_C zt z0 theta0) i x z
                (spec_path zt z0 theta0 (i - 1)).2 _ _
                Hxp Hzp ltac:(lia) ltac:(lia)) as Hbody.
  assert (Hnext : spec_path zt z0 theta0 i
            = spec_step zt (initial_C zt z0 theta0)
                ((spec_path zt z0 theta0 (i - 1)).1.1,
                 (spec_path zt z0 theta0 (i - 1)).1.2,
                 (spec_path zt z0 theta0 (i - 1)).2)).
  { destruct i as [|j]; [lia|]. replace (S j - 1)%nat with j by lia.
    cbn [spec_path]. destruct (spec_path zt z0 theta0 j) as [[? ?] ?].
    reflexivity. }
  rewrite Hnext in HXi, HZi. clear Hnext.
  set (theta := (spec_path zt z0 theta0 (i - 1)).2) in *.
  set (xp := (spec_path zt z0 theta0 (i - 1)).1.1) in *.
  set (zp := (spec_path zt z0 theta0 (i - 1)).1.2) in *.
  assert (Hstep : spec_step zt (initial_C zt z0 theta0) (xp, zp, theta)
    = let normal := (numpy.cos (theta + numpy.pi / numpy.lit 2.0),
                     - numpy.sin (theta + numpy.pi / numpy.lit 2.0)) in
      let R := radius_of_curvature zp zt (initial_C zt z0 theta0) in
      let center := (xp + R * normal.1, zp + R * normal.2) in
      let dtheta := numpy.lit 1.0 / R in
      let p := rotate (xp, zp) (Some center) (Some dtheta)
                 (Some "radians"%string) in
      (p.1, p.2, theta + dtheta)).
  { cbn zeta. change (Some "radians"%string) with (Some (mode_of radians)).
    rewrite rotate_unit. reflexivity. }
  rewrite Hstep in Hbody, HXi, HZi. clear Hstep. cbn zeta in Hbody, HXi, HZi.
  exists x, z, X, Z, theta, xp, zp. cbn zeta.
  repeat split; try assumption.
  unfold march_until. rewrite flight_init_ok by lia. cbn [mbind res_bind].
  unfold march_until in Hun. rewrite flight_init_ok in Hun by lia.
  cbn [mbind res_bind] in Hun. unfold range in *.
  rewrite Nat2Z.id in *.
  replace (S i - 1)%nat with (S (i - 1)) by lia.
  rewrite seq_S, for_each_app, Hun. cbn [mbind res_bind for_each].
  replace (1 + (i - 1))%nat with i by lia.
  rewrite Hbody. reflexivity.
Qed.

End Generic.

(** C1. For every [zt], [z0] and [theta0] (positive or not), and every
    point count [N >= 2], the path tracer returns a pair of sequences
    [(x, z)] with exactly [N] entries each, and point 0 is [(0.0, z0)]
    exactly.  When [N] is left out it is 1000. *)
Theorem trace_N_points_from_origin {F : Type} `{numpy.Float F}
    (zt z0 theta0 : F) (N : Z) :
  (2 <= N)%Z ->
  (exists x z : list F,
     trace zt z0 theta0 (Some N) = Ok (x, z)
     /\ Z.of_nat (length x) = N /\ Z.of_nat (length z) = N
     /\ x !! 0%nat = Some (numpy.lit 0.0) /\ z !! 0%nat = Some z0)
  /\ trace zt z0 theta0 None = trace zt z0 theta0 (Some 1000%Z).
Proof.
  intros HN. split;
    [|unfold trace, plot_flight_path, default; cbn [from_option]; reflexivity].
  destruct (plot_flight_path_run zt z0 theta0 N ltac:(lia))
    as (x & z & Hrun & Lx & Lz & Hpath).
  exists x, z. unfold trace. rewrite Hrun. cbn [mbind res_bind].
  destruct (Hpath 0%nat ltac:(lia)) as [Hx0 Hz0].
  repeat split; [lia | lia | exact Hx0 | exact Hz0].
Qed.

Lemma trace_N_points_from_origin_witness :
  (2 <= 2)%Z /\
  ((exists x z : list R,
      trace 1%R 1%R 0%R (Some 2%Z) = Ok (x, z)
      /\ Z.of_nat (length x) = 2%Z /\ Z.of_nat (length z) = 2%Z
      /\ x !! 0%nat = Some (numpy.lit 0.0) /\ z !! 0%nat = Some 1%R)
   /\ trace 1%R 1%R 0%R None = trace 1%R 1%R 0%R (Some 1000%Z)).
Proof.
  split; [lia|].
  apply (trace_N_points_from_origin (F := R) 1%R 1%R 0%R 2%Z). lia.
Defined.

(** C2. For every [i] from 1 to [N - 1], iteration [i] of the marching
    loop reads the previous point [(x[i-1], z[i-1])] and the heading
    [theta], and computes: [normal = (cos(theta + pi/2), -sin(theta +
    pi/2))]; [R = radius_of_curvature(z[i-1], zt, C)]; centre = previous
    point + [R * normal]; [dtheta = ds / R] with [ds = 1.0]; new point =
    [rotate(previous point, centre, dtheta, 'radians')]; it stores the new
    point at index [i] and adds [dtheta] to the heading.  The arrays the
    run returns hold that same point at index [i]. *)
Theorem marching_step_formula {F : Type} `{numpy.Float F}
    (zt z0 theta0 : F) (N : Z) (i : nat) :
  (1 <= i)%nat -> (Z.of_nat i <= N - 1)%Z ->
  exists (x z X Z : list F) (theta xp zp : F),
    let C := initial_C zt z0 theta0 in
    let ds := numpy.lit 1.0 in
    march_until zt z0 theta0 N i = Ok (x, z, theta)
    /\ x !! (i - 1)%nat = Some xp /\ z !! (i - 1)%nat = Some zp
    /\ plot_flight_path zt z0 theta0 (Some N) = Ok (X, Z, C)
    /\ X !! (i - 1)%nat = Some xp /\ Z !! (i - 1)%nat = Some zp
    /\ let normal := (numpy.cos (theta + numpy.pi / numpy.lit 2.0),
                      - numpy.sin (theta + numpy.pi / numpy.lit 2.0))%py in
       let R := radius_of_curvature zp zt C in
       let center := (xp + R * normal.1, zp + R * normal.2)%py in
       let dtheta := (ds / R)%py in
       let p := rotate (xp, zp) (Some center) (Some dtheta)
                  (Some "radians"%string) in
       march_body zt C ds i (x, z, theta)
         = Ok (<[i := p.1]> x, <[i := p.2]> z, (theta + dtheta)%py)
       /\ march_until zt z0 theta0 N (S i)
         = Ok (<[i := p.1]> x, <[i := p.2]> z, (theta + dtheta)%py)
       /\ X !! i = Some p.1 /\ Z !! i = Some p.2.
Proof. apply marching_step_run. Qed.

Lemma marching_step_formula_witness :
  (1 <= 1)%nat /\ (Z.of_nat 1 <= 2 - 1)%Z /\
  exists (x z X Z : list R) (theta xp zp : R),
    let C := initial_C 4%R 1%R 0%R in
    let ds := numpy.lit 1.0 in
    march_until 4%R 1%R 0%R 2%Z 1 = Ok (x, z, theta)
    /\ x !! (1 - 1)%nat = Some xp /\ z !! (1 - 1)%nat = Some zp
    /\ plot_flight_path 4%R 1%R 0%R (Some 2%Z) = Ok (X, Z, C)
    /\ X !! (1 - 1)%nat = Some xp /\ Z !! (1 - 1)%nat = Some zp
    /\ let normal := (numpy.cos (theta + numpy.pi / numpy.lit 2.0),
                      - numpy.sin (theta + numpy.pi / numpy.lit 2.0))%py in
       let R := radius_of_curvature zp 4%R C in
       let center := (xp + R * normal.1, zp + R * normal.2)%py in
       let dtheta := (ds / R)%py in
       let p := rotate (xp, zp) (Some center) (Some dtheta)
                  (Some "radians"%string) in
       march_body 4%R C ds 1 (x, z, theta)
         = Ok (<[1%nat := p.1]> x, <[1%nat := p.2]> z, (theta + dtheta)%py)
       /\ march_until 4%R 1%R 0%R 2%Z 2
         = Ok (<[1%nat := p.1]> x, <[1%nat := p.2]> z, (theta + dtheta)%py)
       /\ X !! 1%nat = Some p.1 /\ Z !! 1%nat = Some p.2.
Proof.
  split; [lia|]. split; [lia|].
  apply (marching_step_formula (F := R) 4%R 1%R 0%R 2%Z 1); lia.
Defined.

(** C3. [radius_of_curvature(z, zt, C)] is
    [zt / (1/3 - (C/2) * (zt/z)^1.5)]: over every carrier the notebook's
    expression groups as the formula does, and over the reals it is that
    formula with the real power. *)
Theorem radius_of_curvature_formula {F : Type} `{numpy.Float F} (z zt C : F) :
  radius_of_curvature z zt C = spec_radius z zt C
  /\ (forall z zt C : R,
        radius_of_curvature z zt C
        = (zt / (1 / 3 - (C / 2) * Rpower (zt / z) 1.5))%R).
Proof.
  split; [reflexivity|]. clear. intros z zt C.
  unfold radius_of_curvature. rewrite lit_exact_three_halves. reflexivity.
Qed.

(** C5. For every point [(x, z)], centre [(xc, zc)] and angle [a],
    [rotate] returns [x' = xc + (x-xc)*cos(a') + (z-zc)*sin(a')] and
    [z' = zc - (x-xc)*sin(a') + (z-zc)*cos(a')], where [a'] is
    [numpy.radians(a)] when the mode is ['degrees'] or is left out, and [a]
    itself when the mode is ['radians']; over the reals
    [numpy.radians(a) = a * pi / 180]. *)
Theorem rotate_formula {F : Type} `{numpy.Float F} (x z xc zc a : F) :
  (let a' := numpy.radians a in
   rotate (x, z) (Some (xc, zc)) (Some a) (Some "degrees"%string)
   = (xc + (x - xc) * numpy.cos a' + (z - zc) * numpy.sin a',
      zc - (x - xc) * numpy.sin a' + (z - zc) * numpy.cos a')%py)
  /\ rotate (x, z) (Some (xc, zc)) (Some a) None
     = rotate (x, z) (Some (xc, zc)) (Some a) (Some "degrees"%string)
  /\ rotate (x, z) (Some (xc, zc)) (Some a) (Some "radians"%string)
     = (xc + (x - xc) * numpy.cos a + (z - zc) * numpy.sin a,
        zc - (x - xc) * numpy.sin a + (z - zc) * numpy.cos a)%py
  /\ (forall d : R, numpy.radians d = (d * PI / 180)%R).
Proof.
  repeat split. apply radians_exact.
Qed.

(** C10. [rotate] does not validate [mode]: for every string other than
    exactly ['degrees'] the angle is taken as radians, so the call equals
    the one with ['radians']; [rotate] returns a pair in every case. *)
Theorem rotate_mode_unchecked {F : Type} `{numpy.Float F}
    (coords : F * F) (center : option (F * F)) (angle : option F)
    (m : string) :
  m <> "degrees"%string ->
  rotate coords center angle (Some m)
  = rotate coords center angle (Some "radians"%string).
Proof.
  intros Hm. unfold rotate, default. cbn [from_option]. unfold Datatypes.id.
  destruct (String.eqb_spec m "degrees") as [->|_]; [congruence|].
  reflexivity.
Qed.

Lemma rotate_mode_unchecked_witness :
  "Degrees"%string <> "degrees"%string /\
  rotate (1%R, 2%R) None (Some 90%R) (Some "Degrees"%string)
  = rotate (1%R, 2%R) None (Some 90%R) (Some "radians"%string).
Proof.
  split; [discriminate|].
  apply (rotate_mode_unchecked (F := R)). discriminate.
Defined.

(** ** Exact arithmetic *)

Section Exact.
Local Open Scope R_scope.

(** The angle [rotate] ends up using when it is given a zero angle, or
    none: zero, whatever the mode. *)
Lemma rotate_zero_exact (p : R * R) (c : option (R * R))
    (mode : option string) :
  rotate p c (Some 0) mode = p /\ rotate p c None mode = p.
Proof.
  unfold rotate, default. cbn [from_option]. unfold Datatypes.id.
  destruct p as [x z]. rewrite !lit_exact_0.
  assert (Hr : numpy.radians 0 = 0) by (rewrite radians_exact; lra).
  destruct c as [[xc zc]|];
    destruct (String.eqb _ "degrees"); rewrite ?Hr; cbn;
    rewrite cos_0, sin_0; split; f_equal; lra.
Qed.

Lemma zip_with_plus_l (f g : R -> R) (xs zs : list R) :
  (forall u v, f u + g v = u) -> length xs = length zs ->
  zip_with Rplus (map f xs) (map g zs) = xs.
Proof.
  intros Hfg. revert zs.
  induction xs as [|u xs IH]; intros [|v zs] Hlen; try discriminate.
  - reflexivity.
  - cbn. rewrite Hfg, IH by (cbn in Hlen; lia). reflexivity.
Qed.

Lemma zip_with_plus_r (f g : R -> R) (xs zs : list R) :
  (forall u v, f u + g v = v) -> length xs = length zs ->
  zip_with Rplus (map f xs) (map g zs) = zs.
Proof.
  intros Hfg. revert zs.
  induction xs as [|u xs IH]; intros [|v zs] Hlen; try discriminate.
  - reflexivity.
  - cbn. rewrite Hfg, IH by (cbn in Hlen; lia). reflexivity.
Qed.

(** The same on a batch: two arrays of one length, a scalar centre, a
    scalar zero angle. *)
Lemma rotate_zero_batch (xs zs : list R) (c : option (R * R))
    (mode : option string) :
  length xs = length zs ->
  let coords := (ndarray.Array xs, ndarray.Array zs) in
  let center := prod_map ndarray.Scalar ndarray.Scalar <$> c in
  rotate coords center (Some (ndarray.Scalar 0)) mode = coords
  /\ rotate coords center None mode = coords.
Proof.
  intros Hlen. cbn zeta.
  assert (Hmain : forall xc zc a : R, a = 0 ->
    ((ndarray.Scalar xc
      + (ndarray.Array xs - ndarray.Scalar xc) * numpy.cos (ndarray.Scalar a)
      + (ndarray.Array zs - ndarray.Scalar zc) * numpy.sin (ndarray.Scalar a))%py,
     (ndarray.Scalar zc
      - (ndarray.Array xs - ndarray.Scalar xc) * numpy.sin (ndarray.Scalar a)
      + (ndarray.Array zs - ndarray.Scalar zc) * numpy.cos (ndarray.Scalar a))%py)
    = (ndarray.Array xs, ndarray.Array zs)).
  { intros xc zc a ->. cbn. rewrite cos_0, sin_0, !length_map.
    destruct (decide (length xs = length zs)) as [_|]; [|contradiction].
    rewrite !map_map. f_equal; f_equal.
    - apply zip_with_plus_l; [intros; cbv beta; lra | assumption].
    - apply zip_with_plus_r; [intros; cbv beta; lra | assumption]. }
  assert (H0 : numpy.lit (F := ndarray.t R) 0.0 = ndarray.Scalar 0).
  { change (ndarray.Scalar (numpy.lit (F := R) 0.0) = ndarray.Scalar 0).
    rewrite lit_exact_0. reflexivity. }
  assert (Hr : numpy.radians (ndarray.Scalar 0) = ndarray.Scalar 0).
  { change (ndarray.Scalar (numpy.radians (F := R) 0) = ndarray.Scalar 0).
    rewrite radians_exact. f_equal. lra. }
  unfold rotate, default.
  destruct c as [[xc zc]|]; cbn [fmap option_fmap option_map prod_map from_option fst snd];
    destruct (String.eqb _ "degrees"); unfold Datatypes.id;
    rewrite ?H0, ?Hr; split; apply Hmain; reflexivity.
Qed.

(** [rotate] keeps the distance to the centre, whatever the angle and
    the mode; a centre left out is the origin. *)
Lemma rotate_isometry (p : R * R) (c : option (R * R)) (a : option R)
    (mode : option string) :
  dist (rotate p c a mode) (default (0, 0) c) = dist p (default (0, 0) c).
Proof.
  assert (Hmain : forall x z xc zc t : R,
            dist (xc + (x - xc) * cos t + (z - zc) * sin t,
                  zc - (x - xc) * sin t + (z - zc) * cos t) (xc, zc)
            = dist (x, z) (xc, zc)).
  { intros x z xc zc t. unfold dist. cbn [fst snd]. f_equal.
    pose proof (sin2_cos2 t) as Hsc. unfold Rsqr in Hsc.
    transitivity (((x - xc) ^ 2 + (z - zc) ^ 2)
                  * (sin t * sin t + cos t * cos t)); [ring|].
    rewrite Hsc. ring. }
  unfold rotate, default. destruct p as [x z].
  destruct c as [[xc zc]|]; cbn [from_option]; unfold Datatypes.id;
    rewrite ?lit_exact_0; apply Hmain.
Qed.

(** The point a marching step starts from lies at distance [|R|] from
    the centre the step builds. *)
Lemma center_at_radius (xp zp theta R : R) :
  let normal := (cos (theta + PI / 2), - sin (theta + PI / 2)) in
  dist (xp, zp) (xp + R * normal.1, zp + R * normal.2) = Rabs R.
Proof.
  cbn zeta. unfold dist. cbn [fst snd].
  set (t := theta + PI / 2).
  pose proof (sin2_cos2 t) as Hsc. unfold Rsqr in Hsc.
  replace ((xp - (xp + R * cos t)) ^ 2 + (zp - (zp + R * - sin t)) ^ 2)
    with (Rsqr R * (sin t * sin t + cos t * cos t))
    by (unfold Rsqr; ring).
  rewrite Hsc, Rmult_1_r. apply sqrt_Rsqr_abs.
Qed.

(** Every marching step puts the new point on the circle of radius [|R|]
    about its centre. *)
Lemma march_on_circle (zt z0 theta0 : R) (N : Z) (i : nat) :
  (1 <= i)%nat -> (Z.of_nat i <= N - 1)%Z ->
  exists (x z X Z : list R) (theta xp zp xi zi : R),
    let C := initial_C zt z0 theta0 in
    march_until zt z0 theta0 N i = Ok (x, z, theta)
    /\ plot_flight_path zt z0 theta0 (Some N) = Ok (X, Z, C)
    /\ X !! (i - 1)%nat = Some xp /\ Z !! (i - 1)%nat = Some zp
    /\ X !! i = Some xi /\ Z !! i = Some zi
    /\ let normal := (cos (theta + PI / 2), - sin (theta + PI / 2)) in
       let R := radius_of_curvature zp zt C in
       let center := (xp + R * normal.1, zp + R * normal.2) in
       dist (xp, zp) center = Rabs R /\ dist (xi, zi) center = Rabs R.
Proof.
  intros Hi HiN.
  destruct (marching_step_run zt z0 theta0 N i Hi HiN)
    as (x & z & X & Z & theta & xp & zp & H).
  cbn zeta in H.
  destruct H as (Hun & _ & _ & Hrun & HXp & HZp & _ & _ & HXi & HZi).
  rewrite lit_exact_2 in HXi, HZi.
  eexists x, z, X, Z, theta, xp, zp, _, _. cbn zeta.
  split; [exact Hun|]. split; [exact Hrun|].
  split; [exact HXp|]. split; [exact HZp|].
  split; [exact HXi|]. split; [exact HZi|].
  pose proof (center_at_radius xp zp theta
                (radius_of_curvature zp zt (initial_C zt z0 theta0))) as Hc.
  cbn zeta in Hc. cbn [fst snd] in *.
  split; [exact Hc|].
  rewrite <- Hc.
  match goal with
  | |- dist ((rotate ?p (Some ?c) ?a ?m).1, (rotate ?p (Some ?c) ?a ?m).2) _ = _ =>
      rewrite <- (surjective_pairing (rotate p (Some c) a m));
      apply (rotate_isometry p (Some c) a m)
  end.
Qed.

(** [radius_of_curvature(z, z, 0)] away from [z = 0]. *)
Lemma radius_trim_exact (z : R) :
  z <> 0 ->
  radius_of_curvature z z 0 = z / (1 / 3)
  /\ radius_of_curvature z z 0 = 3 * z.
Proof.
  intros Hz.
  assert (E : radius_of_curvature z z 0 = z / (1 / 3)).
  { unfold radius_of_curvature.
    change (z / (1 / 3 - 0 / 2 * Rpower (z / z) (numpy.lit 1.5))
            = z / (1 / 3)).
    f_equal. lra. }
  split; [exact E | rewrite E; field].
Qed.

(** The constant [C] for positive depths. *)
Lemma initial_C_exact (zt z0 theta0 : R) :
  0 < zt -> 0 < z0 ->
  initial_C zt z0 theta0 = spec_C zt z0 (theta0 * PI / 180).
Proof.
  intros Hzt Hz0. unfold initial_C, spec_C.
  rewrite radians_exact, lit_exact_half. cbn.
  rewrite Rpower_sqrt by (apply Rdiv_lt_0_compat; assumption).
  f_equal. f_equal. field. lra.
Qed.

End Exact.

(** ** IEEE 754 binary64 *)

Section Binary64.
Import binary64.
Variable L : libm.
#[local] Hint Extern 0 (numpy.Float float) => exact (Float L)
  : typeclass_instances.
Local Open Scope py_scope.

(** NaN is absorbing for the four operations. *)
Lemma add_nan_r (x : float) : SFadd prec emax x nan = nan.
Proof. destruct x; reflexivity. Qed.
Lemma sub_nan_r (x : float) : SFsub prec emax x nan = nan.
Proof. destruct x; reflexivity. Qed.
Lemma mul_nan_r (x : float) : SFmul prec emax x nan = nan.
Proof. destruct x; reflexivity. Qed.
Lemma div_nan_r (x : float) : SFdiv prec emax x nan = nan.
Proof. destruct x; reflexivity. Qed.

(** A division by zero gives NaN or an infinity. *)
Lemma div_by_zero (a z : float) :
  is_zero z = true ->
  is_nan (SFdiv prec emax a z) || is_inf (SFdiv prec emax a z) = true.
Proof. destruct z; try discriminate. destruct a; reflexivity. Qed.

Lemma lit_three_halves : numpy.lit 1.5 = three_halves.
Proof. reflexivity. Qed.

Lemma third_finite :
  numpy.of_int 1 / numpy.of_int 3
  = S754_finite false 6004799503160661 (-54).
Proof. reflexivity. Qed.

Lemma lit_one_finite :
  numpy.lit 1.0 = S754_finite false 4503599627370496 (-52).
Proof. reflexivity. Qed.

Hypothesis HL : C99 L.

(** The power in the curvature formula at a degenerate depth. *)
Lemma pow_degenerate (zt z : float) :
  degenerate zt z = true ->
  (zt / z) ** numpy.lit 1.5 = nan
  \/ (zt / z) ** numpy.lit 1.5 = S754_infinity false.
Proof.
  unfold degenerate. rewrite lit_three_halves. cbn [numpy.div numpy.pow Float].
  destruct (SFdiv prec emax zt z) as [s|s| |[] m e] eqn:E; intros Hd.
  - destruct z; try discriminate; destruct zt; discriminate.
  - right. apply (pow_inf L HL).
  - left. apply (pow_nan L HL). reflexivity.
  - left. apply (pow_neg_base L HL).
  - destruct z; try discriminate; destruct zt; discriminate.
Qed.

(** There the radius is NaN or zero. *)
Lemma radius_degenerate (zt z C : float) :
  degenerate zt z = true ->
  is_nan (radius_of_curvature z zt C) || is_zero (radius_of_curvature z zt C)
  = true.
Proof.
  intros Hd. unfold radius_of_curvature. rewrite third_finite.
  destruct (pow_degenerate zt z Hd) as [-> | ->];
    cbn [numpy.div numpy.sub numpy.mul numpy.of_int Float].
  - rewrite mul_nan_r. cbn. rewrite div_nan_r. reflexivity.
  - destruct (SFdiv prec emax C (of_int 2)) as [s|s| |s m e];
      cbn; rewrite ?div_nan_r; try reflexivity;
      destruct zt; reflexivity.
Qed.

(** With such a radius the step lands on (NaN, NaN). *)
Lemma spec_step_bad_radius (zt C x z theta : float) :
  is_nan (radius_of_curvature z zt C) || is_zero (radius_of_curvature z zt C)
  = true ->
  (spec_step zt C (x, z, theta)).1 = (nan, nan).
Proof.
  unfold spec_step, spec_rotate. cbn zeta. rewrite lit_one_finite.
  destruct (radius_of_curvature z zt C) as [s|s| |s m e]; try discriminate;
    intros _; cbn [fst snd numpy.add numpy.sub numpy.mul numpy.div
                   numpy.cos numpy.sin Float].
  - cbn [SFdiv]. rewrite (cos_inf L HL), (sin_inf L HL).
    rewrite !mul_nan_r, add_nan_r, sub_nan_r. reflexivity.
  - cbn [SFmul SFdiv]. rewrite !add_nan_r. reflexivity.
Qed.

Lemma spec_step_degenerate (zt C x z theta : float) :
  degenerate zt z = true ->
  (spec_step zt C (x, z, theta)).1 = (nan, nan).
Proof.
  intros Hd. apply spec_step_bad_radius, radius_degenerate, Hd.
Qed.

Lemma degenerate_nan (zt : float) : degenerate zt nan = true.
Proof. unfold degenerate. rewrite div_nan_r. reflexivity. Qed.

(** Once the path meets a degenerate depth, every later point is
    (NaN, NaN). *)
Lemma spec_path_degenerate (zt z0 theta0 : float) (k j : nat) :
  degenerate zt (spec_path zt z0 theta0 k).1.2 = true ->
  (k < j)%nat ->
  (spec_path zt z0 theta0 j).1 = (nan, nan).
Proof.
  intros Hd Hkj. induction j as [|j IH]; [lia|].
  cbn [spec_path].
  destruct (spec_path zt z0 theta0 j) as [[xj zj] tj] eqn:E.
  apply spec_step_degenerate.
  destruct (decide (k = j)) as [->|Hne].
  - rewrite E in Hd. exact Hd.
  - assert (Hnan : (xj, zj) = (nan, nan)) by (apply IH; lia).
    inversion Hnan. apply degenerate_nan.
Qed.

(** A finite nonzero float divided by itself is exactly one, whatever its
    mantissa and exponent. *)
Lemma div_self (s : bool) (m : positive) (e : Z) :
  SFdiv prec emax (S754_finite s m e) (S754_finite s m e) = of_int 1.
Proof.
  unfold SFdiv, SFdiv_core_binary.
  rewrite !Z.sub_diag.
  change (Z.min (fexp prec emax 0) 0) with (-53)%Z.
  change (0 - -53)%Z with 53%Z. cbv iota.
  rewrite Z.shiftl_mul_pow2 by lia.
  destruct (Z.div_eucl (Z.pos m * 2 ^ 53) (Z.pos m)) as [q r] eqn:E.
  assert (Hq : q = (2 ^ 53)%Z).
  { change q with (fst (q, r)). rewrite <- E.
    change (fst (Z.div_eucl (Z.pos m * 2 ^ 53) (Z.pos m)))
      with (Z.pos m * 2 ^ 53 / Z.pos m)%Z.
    rewrite Z.mul_comm. apply Z.div_mul. lia. }
  assert (Hr : r = 0%Z).
  { change r with (snd (q, r)). rewrite <- E.
    change (snd (Z.div_eucl (Z.pos m * 2 ^ 53) (Z.pos m)))
      with ((Z.pos m * 2 ^ 53) mod Z.pos m)%Z.
    rewrite Z.mul_comm. apply Z.mod_mul. lia. }
  subst q r. unfold new_location.
  destruct s, (Z.even (Z.pos m)); reflexivity.
Qed.

(** [radius_of_curvature(z, z, 0)] on a finite nonzero float: the
    quotient of [z] by the float [1/3]. *)
Lemma radius_trim_binary64 (s : bool) (m : positive) (e : Z) :
  radius_of_curvature (S754_finite s m e) (S754_finite s m e) (of_int 0)
  = S754_finite s m e / (of_int 1 / of_int 3).
Proof.
  unfold radius_of_curvature.
  cbn [numpy.add numpy.sub numpy.mul numpy.div numpy.pow numpy.of_int Float].
  rewrite div_self, (pow_one L HL). reflexivity.
Qed.

(** The run on [zt = z0 = 1.0], [theta0 = 0.0], [N = 2]. *)
Hypothesis HE : rounds_at_example L.

Ltac expose :=
  cbn [numpy.add numpy.sub numpy.mul numpy.div numpy.pow numpy.neg
       numpy.cos numpy.sin numpy.pi numpy.of_int numpy.of_rat Float].

Lemma example_C :
  initial_C (of_int 1) (of_int 1) (S754_zero false)
  = S754_finite false 6004799503160662 (-53).
Proof.
  unfold initial_C.
  change (numpy.radians (S754_zero false)) with (S754_zero false).
  change (of_int 1 / of_int 1) with (of_int 1).
  expose. rewrite (cos_zero L HL), (pow_one L HL). reflexivity.
Qed.

Lemma example_radius :
  radius_of_curvature (of_int 1) (of_int 1)
    (S754_finite false 6004799503160662 (-53))
  = S754_finite true 4503599627370496 2.
Proof.
  unfold radius_of_curvature.
  change (of_int 1 / of_int 1) with (of_int 1).
  expose. rewrite (pow_one L HL). reflexivity.
Qed.

Lemma example_step :
  spec_step (of_int 1) (S754_finite false 6004799503160662 (-53))
    (S754_zero false, of_int 1, S754_zero false)
  = (of_int 1, S754_zero false, tiny).
Proof.
  unfold spec_step, spec_rotate. cbn zeta. rewrite example_radius.
  change (S754_zero false + numpy.pi / numpy.lit 2) with halfpi.
  change (numpy.lit 1.0 / S754_finite true 4503599627370496 2) with tiny.
  expose. cbn [fst snd].
  rewrite (cos_at_halfpi L HE), (sin_at_halfpi L HE),
          (cos_at_tiny L HE), (sin_at_tiny L HE).
  reflexivity.
Qed.

Lemma example_run :
  plot_flight_path (of_int 1) (of_int 1) (S754_zero false) (Some 2%Z)
  = Ok ([S754_zero false; of_int 1], [of_int 1; S754_zero false],
        S754_finite false 6004799503160662 (-53)).
Proof.
  unfold plot_flight_path, default. cbn [from_option]. unfold Datatypes.id.
  rewrite flight_init_ok by lia. cbn [mbind res_bind].
  rewrite example_C.
  change (range 1 2) with [1%nat]. cbn [for_each].
  change (<[0%nat := numpy.lit 0.0]> (replicate (Z.to_nat 2) (numpy.lit 0)))
    with [S754_zero false; S754_zero false].
  change (<[0%nat := of_int 1]> (replicate (Z.to_nat 2) (numpy.lit 0)))
    with [of_int 1; S754_zero false].
  rewrite (march_body_step _ _ 1 _ _ _ (S754_zero false) (of_int 1))
    by (reflexivity || (cbn [length]; lia)).
  change (numpy.radians (S754_zero false)) with (S754_zero false).
  rewrite example_step. reflexivity.
Qed.

End Binary64.

Lemma table_libm_C99 : binary64.C99 binary64.table_libm.
Proof.
  split; try (intros; reflexivity).
  - intros y Hy. cbn. unfold binary64.table_pow.
    change (SFeqb binary64.nan (binary64.of_int 1)) with false.
    rewrite Hy. destruct (_ || _); reflexivity.
  - intros []; reflexivity.
Qed.

Lemma table_libm_rounds : binary64.rounds_at_example binary64.table_libm.
Proof. split; reflexivity. Qed.

(** ** The remaining claims *)

(** C4. The constant [C] is computed from the inputs before the marching
    loop starts.  In exact arithmetic and for positive depths it is
    [(cos(theta) - (1/3)*(z0/zt)) * sqrt(z0/zt)] with [theta] the initial
    angle in radians, and it is [2/3] for [zt = z0 = 1], [theta0 = 0].  In
    binary64, with a C library that follows Annex F and rounds correctly
    at the four arguments met, the run on [zt = 1.0], [z0 = 1.0],
    [theta0 = 0.0], [N = 2] gives [C = 0.6666666666666667], within [1e-15]
    of [2/3], and point 1 is [(1.0, 0.0)]: finite and distinct from
    point 0. *)
Theorem integration_constant_at_init (zt z0 theta0 : R) (N : Z)
    (L : binary64.libm) :
  (0 < zt)%R -> (0 < z0)%R -> (1 <= N)%Z ->
  binary64.C99 L -> binary64.rounds_at_example L ->
  (exists (st : march_state) (X Z : list R),
     flight_init zt z0 theta0 N
       = Ok (st, spec_C zt z0 (theta0 * PI / 180))
     /\ plot_flight_path zt z0 theta0 (Some N)
       = Ok (X, Z, spec_C zt z0 (theta0 * PI / 180)))
  /\ spec_C 1 1 (0 * PI / 180) = (2 / 3)%R
  /\ (exists C x1 z1 : binary64.float,
        plot_flight_path (H := binary64.Float L)
          (binary64.of_int 1) (binary64.of_int 1) (S754_zero false)
          (Some 2%Z)
        = Ok ([S754_zero false; x1], [binary64.of_int 1; z1], C)
        /\ SFleb
             (SFabs (SFsub binary64.prec binary64.emax C
                       (SFdiv binary64.prec binary64.emax
                          (binary64.of_int 2) (binary64.of_int 3))))
             (binary64.of_rat 1e-15) = true
        /\ binary64.is_finite x1 = true /\ binary64.is_finite z1 = true
        /\ (x1, z1) <> (S754_zero false, binary64.of_int 1)).
Proof.
  intros Hzt Hz0 HN HL HE. split; [|split].
  - destruct (plot_flight_path_run zt z0 theta0 N HN)
      as (X & Z & Hrun & _).
    rewrite <- (initial_C_exact zt z0 theta0 Hzt Hz0).
    eexists _, X, Z. split; [apply flight_init_ok; exact HN | exact Hrun].
  - unfold spec_C.
    replace (0 * PI / 180)%R with 0%R by lra.
    replace (1 / 1)%R with 1%R by lra.
    rewrite cos_0, sqrt_1. lra.
  - exists (S754_finite false 6004799503160662 (-53)),
           (binary64.of_int 1), (S754_zero false).
    split; [apply (example_run L HL HE)|].
    repeat split; try reflexivity. discriminate.
Qed.

Lemma integration_constant_at_init_witness :
  (0 < 4)%R /\ (0 < 1)%R /\ (1 <= 2)%Z
  /\ binary64.C99 binary64.table_libm
  /\ binary64.rounds_at_example binary64.table_libm
  /\ (exists (st : march_state) (X Z : list R),
        flight_init 4%R 1%R 0%R 2%Z = Ok (st, spec_C 4 1 (0 * PI / 180))
        /\ plot_flight_path 4%R 1%R 0%R (Some 2%Z)
          = Ok (X, Z, spec_C 4 1 (0 * PI / 180))).
Proof.
  assert (H4 : (0 < 4)%R) by lra.
  assert (H1 : (0 < 1)%R) by lra.
  assert (H2 : (1 <= 2)%Z) by lia.
  repeat (split; [first [exact H4 | exact H1 | exact H2
                        | exact table_libm_C99 | exact table_libm_rounds]|]).
  exact (proj1 (integration_constant_at_init 4%R 1%R 0%R 2%Z
                  binary64.table_libm H4 H1 H2
                  table_libm_C99 table_libm_rounds)).
Defined.

(** C6, as the code has it.  For every [zt], [z0] and [theta0] in
    binary64, NaN and infinities included, and every [N >= 1], the path
    tracer does not raise and returns two sequences of [N] entries.  A
    division by a zero depth gives NaN or a signed infinity; and with a C
    library that follows Annex F, once a depth [z[k]] is zero, or makes
    [zt / z[k]] negative or NaN, every later point is (NaN, NaN). *)
Theorem trace_total_and_nan_propagates (L : binary64.libm)
    (zt z0 theta0 : binary64.float) (N : Z) :
  (1 <= N)%Z ->
  exists x z : list binary64.float,
    trace (H := binary64.Float L) zt z0 theta0 (Some N) = Ok (x, z)
    /\ Z.of_nat (length x) = N /\ Z.of_nat (length z) = N
    /\ (forall a d : binary64.float,
          binary64.is_zero d = true ->
          binary64.is_nan (SFdiv binary64.prec binary64.emax a d)
          || binary64.is_inf (SFdiv binary64.prec binary64.emax a d) = true)
    /\ (binary64.C99 L ->
        forall (k j : nat) (zk : binary64.float),
          z !! k = Some zk -> binary64.degenerate zt zk = true ->
          (k < j)%nat -> (Z.of_nat j < N)%Z ->
          x !! j = Some binary64.nan /\ z !! j = Some binary64.nan).
Proof.
  intros HN.
  destruct (plot_flight_path_run (H := binary64.Float L) zt z0 theta0 N HN)
    as (x & z & Hrun & Lx & Lz & Hpath).
  exists x, z. unfold trace. rewrite Hrun. cbn [mbind res_bind].
  split; [reflexivity|]. split; [lia|]. split; [lia|].
  split; [apply div_by_zero|].
  intros HL k j zk Hk Hd Hkj HjN.
  destruct (Hpath k ltac:(lia)) as [_ Hzk].
  rewrite Hk in Hzk. injection Hzk as ->.
  pose proof (spec_path_degenerate L HL zt z0 theta0 k j Hd Hkj) as Hnan.
  destruct (Hpath j ltac:(lia)) as [Hxj Hzj].
  rewrite Hxj, Hzj, (surjective_pairing (spec_path zt z0 theta0 j).1).
  rewrite Hnan. split; reflexivity.
Qed.

Lemma trace_total_and_nan_propagates_witness :
  (1 <= 3)%Z /\
  exists x z : list binary64.float,
    trace (H := binary64.Float binary64.table_libm)
      (binary64.of_int 1) (binary64.of_int (-1)) (S754_zero false) (Some 3%Z)
    = Ok (x, z)
    /\ Z.of_nat (length x) = 3%Z /\ Z.of_nat (length z) = 3%Z
    /\ (forall a d : binary64.float,
          binary64.is_zero d = true ->
          binary64.is_nan (SFdiv binary64.prec binary64.emax a d)
          || binary64.is_inf (SFdiv binary64.prec binary64.emax a d) = true)
    /\ (binary64.C99 binary64.table_libm ->
        forall (k j : nat) (zk : binary64.float),
          z !! k = Some zk ->
          binary64.degenerate (binary64.of_int 1) zk = true ->
          (k < j)%nat -> (Z.of_nat j < 3)%Z ->
          x !! j = Some binary64.nan /\ z !! j = Some binary64.nan).
Proof.
  assert (H3 : (1 <= 3)%Z) by lia.
  split; [exact H3|].
  exact (trace_total_and_nan_propagates binary64.table_libm
           (binary64.of_int 1) (binary64.of_int (-1)) (S754_zero false)
           3%Z H3).
Defined.

(** C6, as stated, fails on an empty path: with [N = 0] the first store
    [x[0] = 0.0] raises [IndexError]. *)
Lemma trace_raises_on_empty_path :
  trace (H := binary64.Float binary64.table_libm)
    (binary64.of_int 1) (binary64.of_int 1) (S754_zero false) (Some 0%Z)
  = Raise IndexError.
Proof. reflexivity. Qed.

(** C8, as the code has it.  For every nonzero [z],
    [radius_of_curvature(z, z, 0)] is [z / (1/3)]: in exact arithmetic,
    where that is [3 z]; and in binary64 for every finite nonzero [z],
    with a C library for which [pow(1, y) = 1], where it is the quotient
    of [z] by the float [1/3]. *)
Theorem radius_at_trim (z : R) (L : binary64.libm)
    (s : bool) (m : positive) (e : Z) :
  z <> 0%R -> binary64.C99 L ->
  radius_of_curvature z z 0%R = (z / (1 / 3))%R
  /\ radius_of_curvature z z 0%R = (3 * z)%R
  /\ radius_of_curvature (H := binary64.Float L)
       (S754_finite s m e) (S754_finite s m e) (binary64.of_int 0)
     = SFdiv binary64.prec binary64.emax (S754_finite s m e)
         (SFdiv binary64.prec binary64.emax
            (binary64.of_int 1) (binary64.of_int 3)).
Proof.
  intros Hz HL. destruct (radius_trim_exact z Hz) as [H1 H2].
  split; [exact H1|]. split; [exact H2|].
  apply (radius_trim_binary64 L HL).
Qed.

Lemma radius_at_trim_witness :
  2%R <> 0%R /\ binary64.C99 binary64.table_libm
  /\ radius_of_curvature 2%R 2%R 0%R = (2 / (1 / 3))%R
  /\ radius_of_curvature 2%R 2%R 0%R = (3 * 2)%R
  /\ radius_of_curvature (H := binary64.Float binary64.table_libm)
       (S754_finite false 4503599627370499 (-52))
       (S754_finite false 4503599627370499 (-52)) (binary64.of_int 0)
     = SFdiv binary64.prec binary64.emax
         (S754_finite false 4503599627370499 (-52))
         (SFdiv binary64.prec binary64.emax
            (binary64.of_int 1) (binary64.of_int 3)).
Proof.
  assert (H2 : 2%R <> 0%R) by lra.
  split; [exact H2|]. split; [exact table_libm_C99|].
  exact (radius_at_trim 2%R binary64.table_libm false 4503599627370499
           (-52)%Z H2 table_libm_C99).
Defined.

(** C8, as stated, fails at [z = 0.0], where the result is NaN, not
    [3 * 0.0]; and in binary64 the quotient by the float [1/3] is not
    always the float [3 z]: at [z = 1 + 3 * 2^-52] the two differ in the
    last place. *)
Lemma radius_at_trim_not_three_z :
  let r := radius_of_curvature (H := binary64.Float binary64.table_libm) in
  let three_times := SFmul binary64.prec binary64.emax (binary64.of_int 3) in
  let z1 := S754_finite false 4503599627370499 (-52) in
  (r (S754_zero false) (S754_zero false) (binary64.of_int 0) = binary64.nan
   /\ three_times (S754_zero false) = S754_zero false)
  /\ (r z1 z1 (binary64.of_int 0) = S754_finite false 6755399441055749 (-51)
      /\ three_times z1 = S754_finite false 6755399441055748 (-51)).
Proof. repeat split; reflexivity. Qed.

(** C9. In exact arithmetic [rotate] is an isometry about its centre:
    the returned point is as far from the centre as the given one, for
    every point, centre, angle and mode.  Consequently, in every marching
    step [i] from 1 to [N - 1], the previous point and the new point both
    lie at distance [|R|] from the step's rotation centre. *)
Theorem rotate_is_isometry (p : R * R) (c : option (R * R)) (a : option R)
    (mode : option string) (zt z0 theta0 : R) (N : Z) (i : nat) :
  (1 <= i)%nat -> (Z.of_nat i <= N - 1)%Z ->
  dist (rotate p c a mode) (default (0%R, 0%R) c)
  = dist p (default (0%R, 0%R) c)
  /\ exists (x z X Z : list R) (theta xp zp xi zi : R),
      let C := initial_C zt z0 theta0 in
      march_until zt z0 theta0 N i = Ok (x, z, theta)
      /\ plot_flight_path zt z0 theta0 (Some N) = Ok (X, Z, C)
      /\ X !! (i - 1)%nat = Some xp /\ Z !! (i - 1)%nat = Some zp
      /\ X !! i = Some xi /\ Z !! i = Some zi
      /\ let normal := (cos (theta + PI / 2), - sin (theta + PI / 2))%R in
         let R := radius_of_curvature zp zt C in
         let center := (xp + R * normal.1, zp + R * normal.2)%R in
         dist (xp, zp) center = Rabs R /\ dist (xi, zi) center = Rabs R.
Proof.
  intros Hi HiN. split.
  - apply rotate_isometry.
  - apply march_on_circle; assumption.
Qed.

Lemma rotate_is_isometry_witness :
  (1 <= 1)%nat /\ (Z.of_nat 1 <= 2 - 1)%Z /\
  dist (rotate (1%R, 2%R) (Some (3%R, 4%R)) (Some 30%R) None)
       (default (0%R, 0%R) (Some (3%R, 4%R)))
  = dist (1%R, 2%R) (default (0%R, 0%R) (Some (3%R, 4%R))).
Proof.
  assert (H1 : (1 <= 1)%nat) by lia.
  assert (H2 : (Z.of_nat 1 <= 2 - 1)%Z) by lia.
  split; [exact H1|]. split; [exact H2|].
  exact (proj1 (rotate_is_isometry (1%R, 2%R) (Some (3%R, 4%R)) (Some 30%R)
                  None 4%R 1%R 0%R 2%Z 1%nat H1 H2)).
Defined.

(** ** Further properties of [rotate] in exact arithmetic *)

Section RotateExact.
Local Open Scope R_scope.

(** The angle in radians that [rotate] works with. *)
Lemma rotate_exact_form (x z : R) (c : option (R * R)) (a : R)
    (mode : option string) :
  exists t : R,
    (t = a * PI / 180 \/ t = a)
    /\ (String.eqb (default "degrees"%string mode) "degrees" = true ->
        t = a * PI / 180)
    /\ (String.eqb (default "degrees"%string mode) "degrees" = false ->
        t = a)
    /\ rotate (x, z) c (Some a) mode =
       let xc := (default (0, 0) c).1 in
       let zc := (default (0, 0) c).2 in
       (xc + (x - xc) * cos t + (z - zc) * sin t,
        zc - (x - xc) * sin t + (z - zc) * cos t).
Proof.
  unfold rotate, default. cbn [from_option]. unfold Datatypes.id.
  destruct (String.eqb _ "degrees") eqn:Em.
  - exists (a * PI / 180). rewrite radians_exact.
    repeat split; try tauto; try discriminate.
    destruct c as [[xc zc]|]; cbn [from_option fst snd];
      rewrite ?lit_exact_0; reflexivity.
  - exists a. repeat split; try tauto; try discriminate.
    destruct c as [[xc zc]|]; cbn [from_option fst snd];
      rewrite ?lit_exact_0; reflexivity.
Qed.

Lemma rotate_raw_add (x z xc zc s t : R) :
  let x1 := xc + (x - xc) * cos s + (z - zc) * sin s in
  let z1 := zc - (x - xc) * sin s + (z - zc) * cos s in
  (xc + (x1 - xc) * cos t + (z1 - zc) * sin t,
   zc - (x1 - xc) * sin t + (z1 - zc) * cos t)
  = (xc + (x - xc) * cos (s + t) + (z - zc) * sin (s + t),
     zc - (x - xc) * sin (s + t) + (z - zc) * cos (s + t)).
Proof. cbn zeta. rewrite cos_plus, sin_plus. f_equal; ring. Qed.

End RotateExact.

(** [rotate] is additive in the angle: turning by [a] and then by [b]
    about the same centre, in the same mode, is turning by [a + b]. *)
Theorem rotate_additive (p : R * R) (c : option (R * R)) (a b : R)
    (mode : option string) :
  rotate (rotate p c (Some a) mode) c (Some b) mode
  = rotate p c (Some (a + b)%R) mode.
Proof.
  destruct p as [x z].
  destruct (rotate_exact_form x z c a mode) as (s & _ & Hs1 & Hs2 & Ea).
  destruct (rotate_exact_form x z c (a + b) mode) as (u & _ & Hu1 & Hu2 & Eab).
  rewrite Ea, Eab. cbn zeta.
  set (xc := (default (0%R, 0%R) c).1) in *.
  set (zc := (default (0%R, 0%R) c).2) in *.
  match goal with
  | |- rotate (?x1, ?z1) _ _ _ = _ =>
      destruct (rotate_exact_form x1 z1 c b mode) as (t & _ & Ht1 & Ht2 & Eb)
  end.
  rewrite Eb. cbn zeta. fold xc zc.
  assert (Hu : u = (s + t)%R).
  { destruct (String.eqb _ "degrees").
    - rewrite (Hs1 eq_refl), (Ht1 eq_refl), (Hu1 eq_refl). lra.
    - rewrite (Hs2 eq_refl), (Ht2 eq_refl), (Hu2 eq_refl). lra. }
  rewrite Hu. apply rotate_raw_add.
Qed.

(** Turning back by the opposite angle undoes a rotation. *)
Theorem rotate_inverse (p : R * R) (c : option (R * R)) (a : R)
    (mode : option string) :
  rotate (rotate p c (Some a) mode) c (Some (- a)%R) mode = p.
Proof.
  destruct p as [x z].
  destruct (rotate_exact_form x z c a mode) as (s & _ & Hs1 & Hs2 & Ea).
  rewrite Ea. cbn zeta.
  set (xc := (default (0%R, 0%R) c).1) in *.
  set (zc := (default (0%R, 0%R) c).2) in *.
  match goal with
  | |- rotate (?x1, ?z1) _ _ _ = _ =>
      destruct (rotate_exact_form x1 z1 c (- a) mode)
        as (t & _ & Ht1 & Ht2 & Eb)
  end.
  rewrite Eb. cbn zeta. fold xc zc.
  assert (Ht : t = (- s)%R).
  { destruct (String.eqb _ "degrees").
    - rewrite (Hs1 eq_refl), (Ht1 eq_refl). lra.
    - rewrite (Hs2 eq_refl), (Ht2 eq_refl). lra. }
  rewrite Ht, (rotate_raw_add x z xc zc s (- s)).
  replace (s + - s)%R with 0%R by lra. rewrite cos_0, sin_0.
  f_equal; lra.
Qed.

(** A full turn changes nothing: 360 in degrees mode (the default),
    [2 pi] in radians mode. *)
Theorem rotate_periodic (p : R * R) (c : option (R * R)) (a : R) :
  rotate p c (Some (a + 360)%R) None = rotate p c (Some a) None
  /\ rotate p c (Some (a + 360)%R) (Some "degrees"%string)
     = rotate p c (Some a) (Some "degrees"%string)
  /\ rotate p c (Some (a + 2 * PI)%R) (Some "radians"%string)
     = rotate p c (Some a) (Some "radians"%string).
Proof.
  assert (Hc : forall t : R, cos (t + 2 * PI) = cos t).
  { intros t. rewrite cos_plus, cos_2PI, sin_2PI. ring. }
  assert (Hs : forall t : R, sin (t + 2 * PI) = sin t).
  { intros t. rewrite sin_plus, cos_2PI, sin_2PI. ring. }
  assert (H : forall (mode : option string) (b : R),
            (String.eqb (default "degrees"%string mode) "degrees" = true ->
             b = (a + 360)%R) ->
            (String.eqb (default "degrees"%string mode) "degrees" = false ->
             b = (a + 2 * PI)%R) ->
            rotate p c (Some b) mode = rotate p c (Some a) mode).
  { intros mode b Hb1 Hb2. destruct p as [x z].
    destruct (rotate_exact_form x z c a mode) as (s & _ & Hs1 & Hs2 & Ea).
    destruct (rotate_exact_form x z c b mode) as (t & _ & Ht1 & Ht2 & Eb).
    rewrite Ea, Eb. cbn zeta.
    assert (Ht : t = (s + 2 * PI)%R).
    { destruct (String.eqb _ "degrees").
      - rewrite (Hs1 eq_refl), (Ht1 eq_refl), (Hb1 eq_refl). lra.
      - rewrite (Hs2 eq_refl), (Ht2 eq_refl), (Hb2 eq_refl). lra. }
    rewrite Ht, Hc, Hs. reflexivity. }
  repeat split; apply H; cbn; intros; reflexivity || discriminate.
Qed.

(** A quarter turn in degrees shows the orientation: about the centre,
    the offset [(dx, dz)] becomes [(dz, -dx)]. *)
Theorem rotate_quarter_turn (x z : R) (c : option (R * R)) :
  rotate (x, z) c (Some 90%R) None
  = let xc := (default (0%R, 0%R) c).1 in
    let zc := (default (0%R, 0%R) c).2 in
    (xc + (z - zc), zc - (x - xc))%R.
Proof.
  destruct (rotate_exact_form x z c 90 None) as (t & _ & Ht & _ & E).
  rewrite E. cbn zeta.
  rewrite (Ht eq_refl).
  replace (90 * PI / 180)%R with (PI / 2)%R by lra.
  rewrite cos_PI2, sin_PI2. f_equal; lra.
Qed.

(** The centre is the fixed point of [rotate]. *)
Theorem rotate_fixes_center (c : R * R) (a : option R) (mode : option string) :
  rotate c (Some c) a mode = c.
Proof.
  destruct c as [xc zc].
  unfold rotate, default. cbn [from_option]. unfold Datatypes.id.
  set (t := if String.eqb _ _ then _ else _). clearbody t.
  cbn. f_equal; lra.
Qed.

(** ** Further properties of the marching scheme in exact arithmetic *)

Section MarchExact.
Local Open Scope R_scope.

Lemma sin_sqr_le (u : R) : sin u * sin u <= u * u.
Proof.
  assert (Hpos : forall v, 0 < v -> - v <= sin v < v).
  { intros v Hv. split; [|apply sin_lt_x, Hv].
    destruct (Rle_dec v PI) as [Hle|Hgt].
    - pose proof (sin_ge_0 v ltac:(lra) Hle). lra.
    - pose proof (SIN_bound v). pose proof PI2_1. lra. }
  destruct (Rtotal_order u 0) as [Hneg|[->|Hp]].
  - pose proof (Hpos (- u) ltac:(lra)) as H. rewrite sin_neg in H. nra.
  - rewrite sin_0. lra.
  - pose proof (Hpos u Hp). nra.
Qed.

(** One marching step from [(xp, zp)] with heading [theta] and radius
    [R <> 0]: the chord to the new point. *)
Lemma step_chord (xp zp theta r : R) :
  r <> 0 ->
  let center := (xp + r * cos (theta + PI / 2),
                 zp + r * - sin (theta + PI / 2)) in
  let p := rotate (xp, zp) (Some center) (Some (1 / r))
             (Some "radians"%string) in
  dist (xp, zp) p = 2 * Rabs r * Rabs (sin (1 / (2 * r)))
  /\ dist (xp, zp) p <= 1.
Proof.
  intros Hr. cbn zeta.
  destruct (rotate_exact_form xp zp
              (Some (xp + r * cos (theta + PI / 2),
                     zp + r * - sin (theta + PI / 2)))
              (1 / r) (Some "radians"%string)) as (t & _ & _ & Ht2 & E).
  rewrite E, (Ht2 eq_refl). clear E Ht2 t.
  unfold dist, default. cbn [from_option]. unfold Datatypes.id.
  cbn [fst snd].
  set (n1 := cos (theta + PI / 2)). set (n2 := sin (theta + PI / 2)).
  set (u := 1 / (2 * r)).
  assert (Ht : 1 / r = 2 * u) by (subst u; field; exact Hr).
  rewrite Ht.
  assert (Hn : n1 * n1 + n2 * n2 = 1).
  { pose proof (sin2_cos2 (theta + PI / 2)) as H. unfold Rsqr in H.
    subst n1 n2. lra. }
  assert (Hc : cos (2 * u) = 1 - 2 * sin u * sin u) by apply cos_2a_sin.
  assert (Hs : sin (2 * u) = 2 * sin u * cos u) by apply sin_2a.
  assert (Hu : sin u * sin u + cos u * cos u = 1).
  { pose proof (sin2_cos2 u) as H. unfold Rsqr in H. exact H. }
  set (S := _ ^ 2 + _ ^ 2).
  assert (HS : S = Rsqr (2 * r * sin u)).
  { subst S. unfold Rsqr. rewrite Hc, Hs.
    transitivity (4 * r * r * (sin u * sin u)
                  * ((n1 * n1 + n2 * n2)
                     * (sin u * sin u + cos u * cos u))); [ring|].
    rewrite Hn, Hu. ring. }
  rewrite HS. split.
  - rewrite sqrt_Rsqr_abs, !Rabs_mult. rewrite (Rabs_pos_eq 2) by lra.
    reflexivity.
  - rewrite <- sqrt_1. apply sqrt_le_1_alt. unfold Rsqr.
    pose proof (sin_sqr_le u) as Hle.
    assert (H4 : 4 * r * r * (u * u) = 1) by (subst u; field; exact Hr).
    assert (0 <= 4 * r * r) by nra.
    nra.
Qed.

(** After the step, the centre is again "new point + R * normal", with
    the normal taken at the new heading: the heading stays tangent to the
    circle the step follows. *)
Lemma step_keeps_centre (xp zp theta r a : R) :
  let center := (xp + r * cos (theta + PI / 2),
                 zp + r * - sin (theta + PI / 2)) in
  let p := rotate (xp, zp) (Some center) (Some a) (Some "radians"%string) in
  (p.1 + r * cos (theta + a + PI / 2), p.2 + r * - sin (theta + a + PI / 2))
  = center.
Proof.
  cbn zeta.
  destruct (rotate_exact_form xp zp
              (Some (xp + r * cos (theta + PI / 2),
                     zp + r * - sin (theta + PI / 2)))
              a (Some "radians"%string)) as (t & _ & _ & Ht2 & E).
  rewrite E, (Ht2 eq_refl). clear E Ht2 t.
  unfold default. cbn [from_option]. unfold Datatypes.id. cbn [fst snd].
  replace (theta + a + PI / 2) with ((theta + PI / 2) + a) by ring.
  rewrite (cos_plus (theta + PI / 2) a), (sin_plus (theta + PI / 2) a).
  f_equal; ring.
Qed.

End MarchExact.

(** In exact arithmetic every marching step with a nonzero radius moves
    the glider by a chord of length [2 |R| |sin(1 / (2 R))|], never more
    than the arclength step [ds = 1]. *)
Theorem march_step_at_most_ds (zt z0 theta0 : R) (N : Z) (i : nat) :
  (1 <= i)%nat -> (Z.of_nat i <= N - 1)%Z ->
  exists (X Z : list R) (xp zp xi zi : R),
    let C := initial_C zt z0 theta0 in
    plot_flight_path zt z0 theta0 (Some N) = Ok (X, Z, C)
    /\ X !! (i - 1)%nat = Some xp /\ Z !! (i - 1)%nat = Some zp
    /\ X !! i = Some xi /\ Z !! i = Some zi
    /\ let R := radius_of_curvature zp zt C in
       (R <> 0%R ->
        dist (xp, zp) (xi, zi)
          = (2 * Rabs R * Rabs (sin (1 / (2 * R))))%R
        /\ (dist (xp, zp) (xi, zi) <= 1)%R).
Proof.
  intros Hi HiN.
  destruct (marching_step_run zt z0 theta0 N i Hi HiN)
    as (x & z & X & Z & theta & xp & zp & H).
  cbn zeta in H.
  destruct H as (_ & _ & _ & Hrun & HXp & HZp & _ & _ & HXi & HZi).
  rewrite lit_exact_2, lit_exact_1 in HXi, HZi.
  eexists X, Z, xp, zp, _, _. cbn zeta.
  split; [exact Hrun|]. split; [exact HXp|]. split; [exact HZp|].
  split; [exact HXi|]. split; [exact HZi|].
  intros HR.
  pose proof (step_chord xp zp theta _ HR) as Hc. cbn zeta in Hc.
  rewrite (surjective_pairing (rotate _ _ _ _)) in Hc. exact Hc.
Qed.

Lemma march_step_at_most_ds_witness :
  (1 <= 1)%nat /\ (Z.of_nat 1 <= 2 - 1)%Z /\
  exists (X Z : list R) (xp zp xi zi : R),
    let C := initial_C 4%R 1%R 0%R in
    plot_flight_path 4%R 1%R 0%R (Some 2%Z) = Ok (X, Z, C)
    /\ X !! (1 - 1)%nat = Some xp /\ Z !! (1 - 1)%nat = Some zp
    /\ X !! 1%nat = Some xi /\ Z !! 1%nat = Some zi
    /\ let R := radius_of_curvature zp 4%R C in
       (R <> 0%R ->
        dist (xp, zp) (xi, zi)
          = (2 * Rabs R * Rabs (sin (1 / (2 * R))))%R
        /\ (dist (xp, zp) (xi, zi) <= 1)%R).
Proof.
  assert (H1 : (1 <= 1)%nat) by lia.
  assert (H2 : (Z.of_nat 1 <= 2 - 1)%Z) by lia.
  split; [exact H1|]. split; [exact H2|].
  exact (march_step_at_most_ds 4%R 1%R 0%R 2%Z 1%nat H1 H2).
Defined.

(** In exact arithmetic the heading stays tangent to the path: after
    iteration [i] the heading is [theta + 1/R], and the rotation centre of
    the step is again the new point plus [R] times the normal at the new
    heading. *)
Theorem march_heading_stays_tangent (zt z0 theta0 : R) (N : Z) (i : nat) :
  (1 <= i)%nat -> (Z.of_nat i <= N - 1)%Z ->
  exists (x z x' z' X Z : list R) (theta theta' xp zp xi zi : R),
    let C := initial_C zt z0 theta0 in
    march_until zt z0 theta0 N i = Ok (x, z, theta)
    /\ march_until zt z0 theta0 N (S i) = Ok (x', z', theta')
    /\ plot_flight_path zt z0 theta0 (Some N) = Ok (X, Z, C)
    /\ X !! (i - 1)%nat = Some xp /\ Z !! (i - 1)%nat = Some zp
    /\ X !! i = Some xi /\ Z !! i = Some zi
    /\ let R := radius_of_curvature zp zt C in
       theta' = (theta + 1 / R)%R
       /\ (xi + R * cos (theta' + PI / 2),
           zi + R * - sin (theta' + PI / 2))%R
          = (xp + R * cos (theta + PI / 2),
             zp + R * - sin (theta + PI / 2))%R.
Proof.
  intros Hi HiN.
  destruct (marching_step_run zt z0 theta0 N i Hi HiN)
    as (x & z & X & Z & theta & xp & zp & H).
  cbn zeta in H.
  destruct H as (Hun & _ & _ & Hrun & HXp & HZp & _ & Hnext & HXi & HZi).
  rewrite lit_exact_2, lit_exact_1 in HXi, HZi, Hnext.
  eexists x, z, _, _, X, Z, theta, _, xp, zp, _, _. cbn zeta.
  split; [exact Hun|]. split; [exact Hnext|]. split; [exact Hrun|].
  split; [exact HXp|]. split; [exact HZp|].
  split; [exact HXi|]. split; [exact HZi|].
  split; [reflexivity|].
  apply (step_keeps_centre xp zp theta _ _).
Qed.

Lemma march_heading_stays_tangent_witness :
  (1 <= 1)%nat /\ (Z.of_nat 1 <= 2 - 1)%Z /\
  exists (x z x' z' X Z : list R) (theta theta' xp zp xi zi : R),
    let C := initial_C 4%R 1%R 0%R in
    march_until 4%R 1%R 0%R 2%Z 1 = Ok (x, z, theta)
    /\ march_until 4%R 1%R 0%R 2%Z 2 = Ok (x', z', theta')
    /\ plot_flight_path 4%R 1%R 0%R (Some 2%Z) = Ok (X, Z, C)
    /\ X !! (1 - 1)%nat = Some xp /\ Z !! (1 - 1)%nat = Some zp
    /\ X !! 1%nat = Some xi /\ Z !! 1%nat = Some zi
    /\ let R := radius_of_curvature zp 4%R C in
       theta' = (theta + 1 / R)%R
       /\ (xi + R * cos (theta' + PI / 2),
           zi + R * - sin (theta' + PI / 2))%R
          = (xp + R * cos (theta + PI / 2),
             zp + R * - sin (theta + PI / 2))%R.
Proof.
  assert (H1 : (1 <= 1)%nat) by lia.
  assert (H2 : (Z.of_nat 1 <= 2 - 1)%Z) by lia.
  split; [exact H1|]. split; [exact H2|].
  exact (march_heading_stays_tangent 4%R 1%R 0%R 2%Z 1%nat H1 H2).
Defined.

(** The curvature radius scales with the depths: multiplying [z] and [zt]
    by the same nonzero factor multiplies the radius by it. *)
Theorem radius_scales_with_depth (k z zt C : R) :
  k <> 0%R -> z <> 0%R ->
  radius_of_curvature (k * z)%R (k * zt)%R C
  = (k * radius_of_curvature z zt C)%R.
Proof.
  intros Hk Hz. unfold radius_of_curvature.
  change (numpy.div (F := R)) with Rdiv.
  change (numpy.sub (F := R)) with Rminus.
  change (numpy.mul (F := R)) with Rmult.
  change (numpy.pow (F := R)) with Rpower.
  replace (k * zt / (k * z))%R with (zt / z)%R by (field; split; assumption).
  unfold Rdiv. ring.
Qed.

Lemma radius_scales_with_depth_witness :
  2%R <> 0%R /\ 3%R <> 0%R /\
  radius_of_curvature (2 * 3)%R (2 * 5)%R 1%R
  = (2 * radius_of_curvature 3%R 5%R 1%R)%R.
Proof.
  assert (H2 : 2%R <> 0%R) by lra.
  assert (H3 : 3%R <> 0%R) by lra.
  split; [exact H2|]. split; [exact H3|].
  exact (radius_scales_with_depth 2%R 3%R 5%R 1%R H2 H3).
Defined.

(** ** Further properties over every carrier *)

(** Short paths.  A negative point count is refused by [numpy.zeros]
    ([ValueError]); with no point at all the first store [x[0] = 0.0] is
    out of range ([IndexError]); with one point the loop body never runs
    and the path is the single point [(0.0, z0)]. *)
Theorem plot_flight_path_short_paths {F : Type} `{numpy.Float F}
    (zt z0 theta0 : F) (n : positive) :
  plot_flight_path zt z0 theta0 (Some (Z.neg n)) = Raise ValueError
  /\ plot_flight_path zt z0 theta0 (Some 0%Z) = Raise IndexError
  /\ plot_flight_path zt z0 theta0 (Some 1%Z)
     = Ok ([numpy.lit 0.0], [z0], initial_C zt z0 theta0).
Proof. repeat split. Qed.

(** A longer run extends a shorter one: the first [N] points do not
    depend on how many points are asked for, nor does [C]. *)
Theorem longer_run_extends {F : Type} `{numpy.Float F}
    (zt z0 theta0 : F) (N N' : Z) :
  (1 <= N)%Z -> (N <= N')%Z ->
  exists (X Z X' Z' : list F) (C : F),
    plot_flight_path zt z0 theta0 (Some N) = Ok (X, Z, C)
    /\ plot_flight_path zt z0 theta0 (Some N') = Ok (X', Z', C)
    /\ X = take (Z.to_nat N) X' /\ Z = take (Z.to_nat N) Z'.
Proof.
  intros HN HN'.
  destruct (plot_flight_path_run zt z0 theta0 N HN)
    as (X & Z & Hrun & LX & LZ & Hpath).
  destruct (plot_flight_path_run zt z0 theta0 N' ltac:(lia))
    as (X' & Z' & Hrun' & LX' & LZ' & Hpath').
  exists X, Z, X', Z', (initial_C zt z0 theta0).
  split; [exact Hrun|]. split; [exact Hrun'|].
  split; apply list_eq; intros i;
    destruct (decide (i < Z.to_nat N)%nat) as [Hi|Hi].
  - rewrite lookup_take_lt by exact Hi.
    rewrite (proj1 (Hpath i Hi)), (proj1 (Hpath' i ltac:(lia))). reflexivity.
  - rewrite lookup_take_ge by lia. apply lookup_ge_None. lia.
  - rewrite lookup_take_lt by exact Hi.
    rewrite (proj2 (Hpath i Hi)), (proj2 (Hpath' i ltac:(lia))). reflexivity.
  - rewrite lookup_take_ge by lia. apply lookup_ge_None. lia.
Qed.

Lemma longer_run_extends_witness :
  (1 <= 2)%Z /\ (2 <= 5)%Z /\
  exists (X Z X' Z' : list R) (C : R),
    plot_flight_path 4%R 1%R 0%R (Some 2%Z) = Ok (X, Z, C)
    /\ plot_flight_path 4%R 1%R 0%R (Some 5%Z) = Ok (X', Z', C)
    /\ X = take (Z.to_nat 2) X' /\ Z = take (Z.to_nat 2) Z'.
Proof.
  assert (H1 : (1 <= 2)%Z) by lia.
  assert (H2 : (2 <= 5)%Z) by lia.
  split; [exact H1|]. split; [exact H2|].
  exact (longer_run_extends 4%R 1%R 0%R 2%Z 5%Z H1 H2).
Defined.

Lemma zip_with_map_map {A B C D E : Type} (h : C -> D -> E) (f : A -> C)
    (g : B -> D) (l : list A) (k : list B) :
  zip_with h (map f l) (map g k) = zip_with (fun a b => h (f a) (g b)) l k.
Proof.
  revert k. induction l as [|a l IH]; intros [|b k]; cbn;
    try reflexivity. rewrite IH. reflexivity.
Qed.

(** [rotate] on a batch is [rotate] on each point: for two arrays of one
    length, a scalar centre and a scalar angle, entry [i] of the result is
    what the scalar call returns for point [i], exactly, over every
    carrier. *)
Theorem rotate_batch_elementwise {F : Type} `{numpy.Float F}
    (xs zs : list F) (c : option (F * F)) (a : option F)
    (mode : option string) :
  length xs = length zs ->
  rotate (ndarray.Array xs, ndarray.Array zs)
    (prod_map ndarray.Scalar ndarray.Scalar <$> c)
    (ndarray.Scalar <$> a) mode
  = (ndarray.Array (zip_with (fun x z => (rotate (x, z) c a mode).1) xs zs),
     ndarray.Array (zip_with (fun x z => (rotate (x, z) c a mode).2) xs zs)).
Proof.
  intros Hlen. unfold rotate. cbv zeta.
  set (m := String.eqb (default "degrees"%string mode) "degrees").
  clearbody m. unfold default.
  destruct c as [[xc zc]|], a as [a|];
    cbn [fmap option_fmap option_map prod_map from_option fst snd];
    unfold Datatypes.id;
    destruct m; cbn; rewrite !length_map;
    (destruct (decide (length xs = length zs)) as [_|]; [|contradiction]);
    rewrite !map_map, !zip_with_map_map; reflexivity.
Qed.

Lemma rotate_batch_elementwise_witness :
  length [1%R; 2%R] = length [3%R; 4%R] /\
  rotate (ndarray.Array [1%R; 2%R], ndarray.Array [3%R; 4%R])
    (prod_map ndarray.Scalar ndarray.Scalar <$> Some (5%R, 6%R))
    (ndarray.Scalar <$> Some 30%R) None
  = (ndarray.Array
       (zip_with (fun x z => (rotate (x, z) (Some (5%R, 6%R)) (Some 30%R)
                                None).1) [1%R; 2%R] [3%R; 4%R]),
     ndarray.Array
       (zip_with (fun x z => (rotate (x, z) (Some (5%R, 6%R)) (Some 30%R)
                                None).2) [1%R; 2%R] [3%R; 4%R])).
Proof.
  split; [reflexivity|].
  exact (rotate_batch_elementwise [1%R; 2%R] [3%R; 4%R] (Some (5%R, 6%R))
           (Some 30%R) None eq_refl).
Defined.

(** In exact arithmetic the title of the figure shows the initial angle
    that was passed in: converting to radians on entry and back to degrees
    for the title is the identity. *)
Theorem title_shows_theta0 (theta0 : R) : title_angle theta0 = theta0.
Proof.
  unfold title_angle, numpy.degrees. cbn zeta. rewrite radians_exact.
  rewrite lit_exact. change (numpy.mul (F := R)) with Rmult.
  change (numpy.div (F := R)) with Rdiv. change (numpy.pi (F := R)) with PI.
  unfold Q2R. cbn. field. apply PI_neq0.
Qed.

(** ** Further properties in binary64 *)

Section Binary64More.
Import binary64.
Variable L : libm.
#[local] Hint Extern 0 (numpy.Float float) => exact (Float L)
  : typeclass_instances.
Local Open Scope py_scope.

Lemma digits2_pos_iter_xO (m : positive) (n : nat) :
  Z.pos (digits2_pos (Nat.iter n xO m)) = (Z.pos (digits2_pos m) + Z.of_nat n)%Z.
Proof.
  induction n as [|n IH]; [cbn; lia|].
  change (Nat.iter (S n) xO m) with (xO (Nat.iter n xO m)).
  cbn [digits2_pos]. rewrite Pos2Z.inj_succ, IH. lia.
Qed.

Lemma mul_pow52 (m : positive) :
  Pos.mul m 4503599627370496 = Nat.iter 52 xO m.
Proof. rewrite Pos.mul_comm. reflexivity. Qed.

(** Multiplying a valid finite float by one gives it back. *)
Lemma mul_one (s : bool) (m : positive) (e : Z) :
  valid_binary prec emax (S754_finite s m e) = true ->
  SFmul prec emax (S754_finite s m e) (of_int 1) = S754_finite s m e.
Proof.
  cbn [valid_binary]. unfold bounded, canonical_mantissa.
  intros Hv. apply andb_prop in Hv. destruct Hv as [Hc Hb].
  apply Z.eqb_eq in Hc. apply Z.leb_le in Hb.
  change (of_int 1) with (S754_finite false 4503599627370496 (-52)).
  cbn [SFmul]. rewrite mul_pow52, xorb_false_r.
  unfold binary_round_aux, shr_fexp.
  cbn [Zdigits2]. rewrite digits2_pos_iter_xO.
  replace (Z.pos (digits2_pos m) + Z.of_nat 52 + (e + -52))%Z
    with (Z.pos (digits2_pos m) + e)%Z by lia.
  rewrite Hc. replace (e - (e + -52))%Z with 52%Z by lia.
  cbn [shr shr_record_of_loc].
  change (SpecFloat.iter_pos shr_1 52
            {| shr_m := Z.pos (Nat.iter 52 xO m);
               shr_r := false; shr_s := false |})
    with {| shr_m := Z.pos m; shr_r := false; shr_s := false |}.
  cbn [shr_m loc_of_shr_record round_nearest_even Zdigits2].
  replace (e + -52 + 52)%Z with e by lia.
  rewrite Hc, Z.sub_diag. cbn [shr shr_m].
  apply Z.leb_le in Hb. rewrite Hb. reflexivity.
Qed.

Hypothesis HL : C99 L.

Lemma radians_zero (s : bool) :
  numpy.radians (S754_zero s) = S754_zero s.
Proof. destruct s; reflexivity. Qed.

Lemma rotate_origin_zero_angle (x z : float) (c : option (float * float))
    (a : option float) (mode : option string) :
  is_finite x = true -> is_zero x = false -> valid_binary prec emax x = true ->
  is_finite z = true -> is_zero z = false -> valid_binary prec emax z = true ->
  (c = None \/ c = Some (S754_zero false, S754_zero false)) ->
  (forall t, a = Some t -> is_zero t = true) ->
  rotate (x, z) c a mode = (x, z).
Proof.
  intros Fx Nx Vx Fz Nz Vz Hc Ha.
  destruct x as [| | |sx mx ex]; try discriminate.
  destruct z as [| | |sz mz ez]; try discriminate.
  unfold rotate. cbv zeta.
  set (m := String.eqb (default "degrees"%string mode) "degrees").
  clearbody m.
  assert (Hcen : default (numpy.lit 0.0, numpy.lit 0.0) c
                 = (S754_zero false, S754_zero false)).
  { destruct Hc as [-> | ->]; reflexivity. }
  rewrite Hcen. clear Hcen Hc.
  assert (Hang : exists s, (if m then numpy.radians (default (numpy.lit 0.0) a)
                            else default (numpy.lit 0.0) a) = S754_zero s).
  { destruct a as [t|]; cbn [default from_option]; unfold Datatypes.id.
    - specialize (Ha t eq_refl). destruct t as [s| | |]; try discriminate.
      exists s. destruct m; [apply radians_zero | reflexivity].
    - exists false. destruct m; reflexivity. }
  destruct Hang as [s ->].
  cbn [numpy.add numpy.sub numpy.mul numpy.cos numpy.sin Float].
  rewrite (cos_zero L HL), (sin_zero L HL).
  cbn [SFsub]. rewrite !mul_one by assumption.
  destruct s, sx, sz; reflexivity.
Qed.

Lemma radius_nan_constant (z zt : float) :
  radius_of_curvature z zt nan = nan.
Proof.
  unfold radius_of_curvature.
  cbn [numpy.add numpy.sub numpy.mul numpy.div numpy.pow numpy.of_int Float].
  cbn [SFdiv SFmul]. rewrite sub_nan_r, div_nan_r. reflexivity.
Qed.

Lemma initial_C_infinite_angle (zt z0 : float) (s : bool) :
  initial_C zt z0 (S754_infinity s) = nan.
Proof.
  unfold initial_C.
  replace (numpy.radians (S754_infinity s)) with (S754_infinity s)
    by (destruct s; reflexivity).
  cbn [numpy.add numpy.sub numpy.mul numpy.div numpy.pow numpy.cos Float].
  rewrite (cos_inf L HL). reflexivity.
Qed.

Lemma spec_path_infinite_angle (zt z0 : float) (s : bool) (j : nat) :
  (spec_path zt z0 (S754_infinity s) (S j)).1 = (nan, nan).
Proof.
  cbn [spec_path]. rewrite initial_C_infinite_angle.
  destruct (spec_path zt z0 (S754_infinity s) j) as [[xj zj] tj].
  apply (spec_step_bad_radius L HL). rewrite radius_nan_constant. reflexivity.
Qed.

Lemma radius_trim_two_thirds (s : bool) (m : positive) (e : Z) :
  radius_of_curvature (S754_finite s m e) (S754_finite s m e)
    (numpy.of_int 2 / numpy.of_int 3)
  = S754_infinity s.
Proof.
  unfold radius_of_curvature.
  cbn [numpy.add numpy.sub numpy.mul numpy.div numpy.pow numpy.of_int Float].
  rewrite div_self, (pow_one L HL). destruct s; reflexivity.
Qed.

End Binary64More.

(** In binary64, about the origin (the default centre) and with a zero
    angle (the default angle), [rotate] returns a finite nonzero point
    exactly as it was given, whatever the mode: no rounding occurs.  The C
    library is any that has [cos(0) = 1] and [sin(0) = 0]. *)
Theorem rotate_default_is_exact_identity (L : binary64.libm)
    (x z : binary64.float) (c : option (binary64.float * binary64.float))
    (a : option binary64.float) (mode : option string) :
  binary64.C99 L ->
  binary64.is_finite x = true -> binary64.is_zero x = false ->
  valid_binary binary64.prec binary64.emax x = true ->
  binary64.is_finite z = true -> binary64.is_zero z = false ->
  valid_binary binary64.prec binary64.emax z = true ->
  (c = None \/ c = Some (S754_zero false, S754_zero false)) ->
  (forall t, a = Some t -> binary64.is_zero t = true) ->
  rotate (H := binary64.Float L) (x, z) c a mode = (x, z).
Proof.
  intros HL Fx Nx Vx Fz Nz Vz Hc Ha.
  apply (rotate_origin_zero_angle L HL); assumption.
Qed.

Lemma rotate_default_is_exact_identity_witness :
  binary64.C99 binary64.table_libm
  /\ valid_binary binary64.prec binary64.emax (binary64.of_rat 1e-20) = true
  /\ valid_binary binary64.prec binary64.emax (binary64.of_int (-3)) = true
  /\ rotate (H := binary64.Float binary64.table_libm)
       (binary64.of_rat 1e-20, binary64.of_int (-3)) None None None
     = (binary64.of_rat 1e-20, binary64.of_int (-3)).
Proof.
  split; [exact table_libm_C99|]. split; [reflexivity|].
  split; [reflexivity|].
  apply (rotate_default_is_exact_identity binary64.table_libm
           (binary64.of_rat 1e-20) (binary64.of_int (-3)) None None None
           table_libm_C99); try reflexivity.
  - left. reflexivity.
  - intros t Ht. discriminate.
Defined.

(** In binary64 an infinite initial angle poisons the whole path: [C] is
    NaN and every point after the first is (NaN, NaN), for every [zt] and
    [z0]; nothing raises.  The C library is any that follows Annex F. *)
Theorem infinite_angle_gives_nan_path (L : binary64.libm)
    (zt z0 : binary64.float) (s : bool) (N : Z) :
  binary64.C99 L -> (1 <= N)%Z ->
  exists x z : list binary64.float,
    plot_flight_path (H := binary64.Float L) zt z0 (S754_infinity s) (Some N)
    = Ok (x, z, binary64.nan)
    /\ x !! 0%nat = Some (S754_zero false) /\ z !! 0%nat = Some z0
    /\ forall j : nat, (1 <= j)%nat -> (Z.of_nat j < N)%Z ->
         x !! j = Some binary64.nan /\ z !! j = Some binary64.nan.
Proof.
  intros HL HN.
  destruct (plot_flight_path_run (H := binary64.Float L) zt z0
              (S754_infinity s) N HN) as (x & z & Hrun & _ & _ & Hpath).
  exists x, z. rewrite Hrun, (initial_C_infinite_angle L HL).
  split; [reflexivity|].
  destruct (Hpath 0%nat ltac:(lia)) as [H0x H0z].
  split; [exact H0x|]. split; [exact H0z|].
  intros j Hj HjN. destruct j as [|j]; [lia|].
  destruct (Hpath (S j) ltac:(lia)) as [Hx Hz].
  pose proof (spec_path_infinite_angle L HL zt z0 s j) as Hnan.
  rewrite Hx, Hz, (surjective_pairing (spec_path zt z0 _ (S j)).1), Hnan.
  split; reflexivity.
Qed.

Lemma infinite_angle_gives_nan_path_witness :
  binary64.C99 binary64.table_libm /\ (1 <= 3)%Z /\
  exists x z : list binary64.float,
    plot_flight_path (H := binary64.Float binary64.table_libm)
      (binary64.of_int 4) (binary64.of_int 1) (S754_infinity false)
      (Some 3%Z)
    = Ok (x, z, binary64.nan)
    /\ x !! 0%nat = Some (S754_zero false)
    /\ z !! 0%nat = Some (binary64.of_int 1)
    /\ forall j : nat, (1 <= j)%nat -> (Z.of_nat j < 3)%Z ->
         x !! j = Some binary64.nan /\ z !! j = Some binary64.nan.
Proof.
  assert (H3 : (1 <= 3)%Z) by lia.
  split; [exact table_libm_C99|]. split; [exact H3|].
  exact (infinite_angle_gives_nan_path binary64.table_libm
           (binary64.of_int 4) (binary64.of_int 1) false 3%Z
           table_libm_C99 H3).
Defined.

(** In binary64, at the trim depth ([z = zt]) and with [C = 2/3], the
    denominator of the curvature formula is exactly zero and the radius is
    an infinity with the sign of [z], for every finite nonzero [z]: the
    division does not raise.  The C library is any with [pow(1, y) = 1]. *)
Theorem radius_at_trim_is_infinite (L : binary64.libm)
    (s : bool) (m : positive) (e : Z) :
  binary64.C99 L ->
  radius_of_curvature (H := binary64.Float L)
    (S754_finite s m e) (S754_finite s m e)
    (SFdiv binary64.prec binary64.emax
       (binary64.of_int 2) (binary64.of_int 3))
  = S754_infinity s.
Proof. intros HL. apply (radius_trim_two_thirds L HL). Qed.

Lemma radius_at_trim_is_infinite_witness :
  binary64.C99 binary64.table_libm /\
  radius_of_curvature (H := binary64.Float binary64.table_libm)
    (binary64.of_int 5) (binary64.of_int 5)
    (SFdiv binary64.prec binary64.emax
       (binary64.of_int 2) (binary64.of_int 3))
  = S754_infinity false.
Proof.
  split; [exact table_libm_C99|].
  exact (radius_at_trim_is_infinite binary64.table_libm false _ _
           table_libm_C99).
Defined.

(** ** A zero angle in binary64 *)

(** The batch form of [rotate], entry by entry. *)
Lemma rotate_batch_pointwise {F : Type} `{numpy.Float F}
    (xs zs : list F) (c : option (F * F)) (a : option F)
    (mode : option string) :
  length xs = length zs ->
  rotate (ndarray.Array xs, ndarray.Array zs)
    (prod_map ndarray.Scalar ndarray.Scalar <$> c)
    (ndarray.Scalar <$> a) mode
  = (ndarray.Array (zip_with (fun x z => (rotate (x, z) c a mode).1) xs zs),
     ndarray.Array (zip_with (fun x z => (rotate (x, z) c a mode).2) xs zs)).
Proof.
  intros Hlen. unfold rotate. cbv zeta.
  set (m := String.eqb (default "degrees"%string mode) "degrees").
  clearbody m. unfold default.
  destruct c as [[xc zc]|], a as [a|];
    cbn [fmap option_fmap option_map prod_map from_option fst snd];
    unfold Datatypes.id;
    destruct m; cbn; rewrite !length_map;
    (destruct (decide (length xs = length zs)) as [_|]; [|contradiction]);
    rewrite !map_map, !zip_with_map_map; reflexivity.
Qed.

Section ZeroAngle.
Import binary64.
Variable L : libm.
#[local] Hint Extern 0 (numpy.Float float) => exact (Float L)
  : typeclass_instances.
Local Open Scope py_scope.
Hypothesis HL : C99 L.

(** About the origin and with a zero angle, each coordinate of a finite
    point comes back equal to itself: the same float when it is not zero,
    a zero when it is zero. *)
Lemma rotate_origin_zero_angle_finite (x z : float)
    (c : option (float * float)) (a : option float) (mode : option string) :
  is_finite x = true -> valid_binary prec emax x = true ->
  is_finite z = true -> valid_binary prec emax z = true ->
  (c = None \/ c = Some (S754_zero false, S754_zero false)) ->
  (forall t, a = Some t -> is_zero t = true) ->
  let r := rotate (x, z) c a mode in
  (SFeqb r.1 x = true /\ (is_zero x = false -> r.1 = x))
  /\ (SFeqb r.2 z = true /\ (is_zero z = false -> r.2 = z)).
Proof.
  intros Fx Vx Fz Vz Hc Ha. cbv zeta.
  unfold rotate. cbv zeta.
  set (m := String.eqb (default "degrees"%string mode) "degrees").
  clearbody m.
  assert (Hcen : default (numpy.lit 0.0, numpy.lit 0.0) c
                 = (S754_zero false, S754_zero false)).
  { destruct Hc as [-> | ->]; reflexivity. }
  rewrite Hcen. clear Hcen Hc.
  assert (Hang : exists s, (if m then numpy.radians (default (numpy.lit 0.0) a)
                            else default (numpy.lit 0.0) a) = S754_zero s).
  { destruct a as [t|]; cbn [default from_option]; unfold Datatypes.id.
    - specialize (Ha t eq_refl). destruct t as [s| | |]; try discriminate.
      exists s. destruct m; [apply (radians_zero L) | reflexivity].
    - exists false. destruct m; reflexivity. }
  destruct Hang as [s ->].
  cbn [numpy.add numpy.sub numpy.mul numpy.cos numpy.sin Float].
  rewrite (cos_zero L HL), (sin_zero L HL).
  destruct x as [sx| | |sx mx ex]; try discriminate;
    destruct z as [sz| | |sz mz ez]; try discriminate;
    cbn [SFsub]; rewrite ?mul_one by assumption;
    cbn [fst snd];
    destruct s, sx, sz; cbn;
    rewrite ?Z.compare_refl, ?Pos.compare_cont_refl; repeat split;
    first [reflexivity | intros; first [discriminate | reflexivity]].
Qed.

Lemma Forall2_zip_with_l {A : Type} (P : A -> Prop) (Q : A -> A -> Prop)
    (f : A -> A -> A) (xs zs : list A) :
  length xs = length zs -> Forall P xs -> Forall P zs ->
  (forall x z, P x -> P z -> Q (f x z) x) ->
  Forall2 Q (zip_with f xs zs) xs.
Proof.
  intros Hlen Hx Hz Hf. revert zs Hlen Hz.
  induction Hx as [|x xs Px Hxs IH]; intros [|z zs] Hlen Hz;
    try discriminate; cbn; constructor.
  - apply Hf; [exact Px | exact (Forall_inv Hz)].
  - apply IH; [cbn in Hlen; lia | exact (Forall_inv_tail Hz)].
Qed.

Lemma Forall2_zip_with_r {A : Type} (P : A -> Prop) (Q : A -> A -> Prop)
    (f : A -> A -> A) (xs zs : list A) :
  length xs = length zs -> Forall P xs -> Forall P zs ->
  (forall x z, P x -> P z -> Q (f x z) z) ->
  Forall2 Q (zip_with f xs zs) zs.
Proof.
  intros Hlen Hx Hz Hf. revert zs Hlen Hz.
  induction Hx as [|x xs Px Hxs IH]; intros [|z zs] Hlen Hz;
    try discriminate; cbn; constructor.
  - apply Hf; [exact Px | exact (Forall_inv Hz)].
  - apply IH; [cbn in Hlen; lia | exact (Forall_inv_tail Hz)].
Qed.

(** The same for a batch of finite points. *)
Lemma rotate_origin_zero_angle_batch (xs zs : list float)
    (c : option (float * float)) (a : option float) (mode : option string) :
  length xs = length zs ->
  Forall (fun x => is_finite x = true /\ valid_binary prec emax x = true) xs ->
  Forall (fun z => is_finite z = true /\ valid_binary prec emax z = true) zs ->
  (c = None \/ c = Some (S754_zero false, S754_zero false)) ->
  (forall t, a = Some t -> is_zero t = true) ->
  exists xs' zs' : list float,
    rotate (ndarray.Array xs, ndarray.Array zs)
      (prod_map ndarray.Scalar ndarray.Scalar <$> c)
      (ndarray.Scalar <$> a) mode
    = (ndarray.Array xs', ndarray.Array zs')
    /\ Forall2 (fun r x => SFeqb r x = true /\ (is_zero x = false -> r = x))
         xs' xs
    /\ Forall2 (fun r z => SFeqb r z = true /\ (is_zero z = false -> r = z))
         zs' zs.
Proof.
  intros Hlen Hx Hz Hc Ha.
  rewrite (rotate_batch_pointwise xs zs c a mode Hlen).
  eexists _, _. split; [reflexivity|]. split.
  - apply (Forall2_zip_with_l _ _ _ xs zs Hlen Hx Hz).
    intros x z [Fx Vx] [Fz Vz].
    exact (proj1 (rotate_origin_zero_angle_finite x z c a mode
                    Fx Vx Fz Vz Hc Ha)).
  - apply (Forall2_zip_with_r _ _ _ xs zs Hlen Hx Hz).
    intros x z [Fx Vx] [Fz Vz].
    exact (proj2 (rotate_origin_zero_angle_finite x z c a mode
                    Fx Vx Fz Vz Hc Ha)).
Qed.

End ZeroAngle.

(** C7, as the code has it.  In exact arithmetic [rotate] with a zero
    angle, or with the angle left out, returns the coordinates it was
    given, for every point, every centre (or none) and every mode; and the
    same holds for a batch, two arrays of one length about a scalar
    centre.  In binary64 the same holds about the origin, given or as the
    default centre, for every finite point and every batch of finite
    points: each coordinate comes back equal to the one given, the very
    same float when it is not zero and a zero when it is zero.  The C
    library is any that follows Annex F. *)
Theorem rotate_zero_is_identity (p : R * R) (xs zs : list R)
    (c : option (R * R)) (mode : option string) :
  length xs = length zs ->
  rotate p c (Some 0%R) mode = p
  /\ rotate p c None mode = p
  /\ (let coords := (ndarray.Array xs, ndarray.Array zs) in
      let center := prod_map ndarray.Scalar ndarray.Scalar <$> c in
      rotate coords center (Some (ndarray.Scalar 0%R)) mode = coords
      /\ rotate coords center None mode = coords)
  /\ (forall (L : binary64.libm) (x z : binary64.float)
        (o : option (binary64.float * binary64.float))
        (a : option binary64.float) (m : option string),
        binary64.C99 L ->
        binary64.is_finite x = true ->
        valid_binary binary64.prec binary64.emax x = true ->
        binary64.is_finite z = true ->
        valid_binary binary64.prec binary64.emax z = true ->
        (o = None \/ o = Some (S754_zero false, S754_zero false)) ->
        (forall t, a = Some t -> binary64.is_zero t = true) ->
        let r := rotate (H := binary64.Float L) (x, z) o a m in
        (SFeqb r.1 x = true /\ (binary64.is_zero x = false -> r.1 = x))
        /\ (SFeqb r.2 z = true /\ (binary64.is_zero z = false -> r.2 = z)))
  /\ (forall (L : binary64.libm) (bxs bzs : list binary64.float)
        (o : option (binary64.float * binary64.float))
        (a : option binary64.float) (m : option string),
        binary64.C99 L ->
        length bxs = length bzs ->
        Forall (fun x => binary64.is_finite x = true
                         /\ valid_binary binary64.prec binary64.emax x = true)
               bxs ->
        Forall (fun z => binary64.is_finite z = true
                         /\ valid_binary binary64.prec binary64.emax z = true)
               bzs ->
        (o = None \/ o = Some (S754_zero false, S754_zero false)) ->
        (forall t, a = Some t -> binary64.is_zero t = true) ->
        exists xs' zs' : list binary64.float,
          rotate (H := ndarray.Float (H := binary64.Float L))
            (ndarray.Array bxs, ndarray.Array bzs)
            (prod_map ndarray.Scalar ndarray.Scalar <$> o)
            (ndarray.Scalar <$> a) m
          = (ndarray.Array xs', ndarray.Array zs')
          /\ Forall2 (fun r x => SFeqb r x = true
                                 /\ (binary64.is_zero x = false -> r = x))
               xs' bxs
          /\ Forall2 (fun r z => SFeqb r z = true
                                 /\ (binary64.is_zero z = false -> r = z))
               zs' bzs).
Proof.
  intros Hlen.
  destruct (rotate_zero_exact p c mode) as [H1 H2].
  split; [exact H1|]. split; [exact H2|].
  split; [apply rotate_zero_batch, Hlen|]. split.
  - intros L x z o a m HL Fx Vx Fz Vz Ho Ha.
    apply (rotate_origin_zero_angle_finite L HL); assumption.
  - intros L bxs bzs o a m HL Hl Hx Hz Ho Ha.
    apply (rotate_origin_zero_angle_batch L HL); assumption.
Qed.

Lemma rotate_zero_is_identity_witness :
  length [1%R; 2%R] = length [3%R; 4%R] /\
  (rotate (5%R, 6%R) (Some (7%R, 8%R)) (Some 0%R) None = (5%R, 6%R)
   /\ rotate (5%R, 6%R) (Some (7%R, 8%R)) None None = (5%R, 6%R)
   /\ (let coords := (ndarray.Array [1%R; 2%R], ndarray.Array [3%R; 4%R]) in
       let center :=
         prod_map ndarray.Scalar ndarray.Scalar <$> Some (7%R, 8%R) in
       rotate coords center (Some (ndarray.Scalar 0%R)) None = coords
       /\ rotate coords center None None = coords))
  /\ binary64.C99 binary64.table_libm
  /\ (let x := binary64.of_rat 1e-20 in
      let z := S754_zero true in
      let r := rotate (H := binary64.Float binary64.table_libm)
                 (x, z) None (Some (S754_zero false)) None in
      (SFeqb r.1 x = true /\ (binary64.is_zero x = false -> r.1 = x))
      /\ (SFeqb r.2 z = true /\ (binary64.is_zero z = false -> r.2 = z)))
  /\ (exists xs' zs' : list binary64.float,
        rotate (H := ndarray.Float (H := binary64.Float binary64.table_libm))
          (ndarray.Array [binary64.of_rat 1e-20; S754_zero true],
           ndarray.Array [binary64.of_int (-3); binary64.of_int 5])
          (prod_map ndarray.Scalar ndarray.Scalar <$> None)
          (ndarray.Scalar <$> None) None
        = (ndarray.Array xs', ndarray.Array zs')
        /\ Forall2 (fun r x => SFeqb r x = true
                               /\ (binary64.is_zero x = false -> r = x))
             xs' [binary64.of_rat 1e-20; S754_zero true]
        /\ Forall2 (fun r z => SFeqb r z = true
                               /\ (binary64.is_zero z = false -> r = z))
             zs' [binary64.of_int (-3); binary64.of_int 5]).
Proof.
  pose proof (rotate_zero_is_identity (5%R, 6%R) [1%R; 2%R] [3%R; 4%R]
                (Some (7%R, 8%R)) None eq_refl)
    as (H1 & H2 & H3 & H4 & H5).
  split; [reflexivity|].
  split; [exact (conj H1 (conj H2 H3))|].
  split; [exact table_libm_C99|]. split.
  - apply (H4 binary64.table_libm (binary64.of_rat 1e-20) (S754_zero true)
             None (Some (S754_zero false)) None table_libm_C99);
      try reflexivity.
    + left. reflexivity.
    + intros t Ht. injection Ht as <-. reflexivity.
  - apply (H5 binary64.table_libm
             [binary64.of_rat 1e-20; S754_zero true]
             [binary64.of_int (-3); binary64.of_int 5]
             None None None table_libm_C99); try reflexivity.
    + repeat constructor.
    + repeat constructor.
    + left. reflexivity.
    + intros t Ht. discriminate.
Defined.

(** C7, as stated, fails in binary64 about another centre: about
    [(1.0, 0.0)] the point [(1e-20, 0.0)] comes back as [(0.0, 0.0)],
    because [1e-20 - 1.0] rounds to [-1.0]. *)
Lemma rotate_zero_moves_a_float :
  let p := (binary64.of_rat 1e-20, S754_zero false) in
  let c := (binary64.of_int 1, S754_zero false) in
  rotate (H := binary64.Float binary64.table_libm) p (Some c)
    (Some (S754_zero false)) None
  = (S754_zero false, S754_zero false)
  /\ rotate (H := binary64.Float binary64.table_libm) p (Some c)
       (Some (S754_zero false)) None
     <> p.
Proof.
  cbv zeta. split; [reflexivity|]. intros H. vm_compute in H. discriminate.
Qed.
